(** * audio2mozzi: the raw-audio to Mozzi-table converter

    A shallow embedding of [extras/python/audio2mozzi.py] and the
    properties of its conversion pipeline: decoding of the raw samples,
    rescaling, the Mega2560 dither, the symmetry pass and the emitted
    header text.

    Python numbers are modelled as they are at run time: an [int] is an
    unbounded integer ([Z]), a [float] is an IEEE-754 binary64 value
    ([spec_float] with precision 53 and maximal exponent 1024, rounding to
    nearest even).  Exceptions are explicit results; the file system
    (the files and which directories exist), the standard output and the
    random generator are threaded as a state. *)

From Stdlib Require Import ZArith List String Ascii Bool Lia SpecFloat DecimalString.
From Stdlib.Strings Require Import Byte.
From stdpp Require Import base gmap strings list.
Import ListNotations.
Local Open Scope Z_scope.

(** ** Python floats: IEEE-754 binary64 *)

Module PyFloat.

Definition prec : Z := 53.
Definition emax : Z := 1024.

(** [float(z)] for a Python int: correctly rounded (ties to even). *)
Definition of_Z (z : Z) : spec_float := binary_normalize prec emax z 0 false.

Definition mul : spec_float -> spec_float -> spec_float := SFmul prec emax.
Definition add : spec_float -> spec_float -> spec_float := SFadd prec emax.
Definition sub : spec_float -> spec_float -> spec_float := SFsub prec emax.
Definition div : spec_float -> spec_float -> spec_float := SFdiv prec emax.
Definition eqb : spec_float -> spec_float -> bool := SFeqb.
Definition leb : spec_float -> spec_float -> bool := SFleb.

(** The literal [0.5]. *)
Definition half : spec_float := S754_finite false 4503599627370496 (-53).

(** The integer part of a finite float, rounding toward zero. *)
Definition trunc_finite (s : bool) (m : positive) (e : Z) : Z :=
  cond_Zopp s (if 0 <=? e then Z.shiftl (Zpos m) e else Z.shiftr (Zpos m) (- e)).

(** A finite float holds an integer when no set bit lies below the
    binary point. *)
Definition is_integral (m : positive) (e : Z) : bool :=
  (0 <=? e) || (Z.land (Zpos m) (Z.ones (- e)) =? 0).

(** The quotient of two Python ints as a float ([a / b] with [b <> 0]),
    correctly rounded from the exact quotient. *)
Definition div_Z (a b : Z) : spec_float :=
  match a with
  | Z0 => S754_zero (b <? 0)
  | Zpos p =>
      div (S754_finite false p 0)
          (S754_finite (b <? 0) (Z.to_pos (Z.abs b)) 0)
  | Zneg p =>
      div (S754_finite true p 0)
          (S754_finite (b <? 0) (Z.to_pos (Z.abs b)) 0)
  end.

Definition is_zero (f : spec_float) : bool :=
  match f with S754_zero _ => true | _ => false end.

End PyFloat.

(** ** Python values, exceptions and arithmetic *)

Inductive exn : Type :=
| FileNotFoundError (path : string)
| EOFError
| ValueError
| OverflowError
| ZeroDivisionError
| TypeError
| SystemExit (code : Z).

Inductive outcome (A : Type) : Type :=
| Ok (a : A)
| Raise (e : exn).
Arguments Ok {A} a.
Arguments Raise {A} e.

Definition obind {A B : Type} (x : outcome A) (k : A -> outcome B) : outcome B :=
  match x with
  | Ok a => k a
  | Raise e => Raise e
  end.

(** The numbers the script handles: the items of an [array] are ints for
    the type codes [b], [h], [i] and floats for [f]. *)
Inductive pyval : Type :=
| PyInt (z : Z)
| PyFloat (f : spec_float).

(** [float(z)]; an int beyond the double range raises [OverflowError]. *)
Definition py_float_of_int (z : Z) : outcome spec_float :=
  match PyFloat.of_Z z with
  | S754_infinity _ => Raise OverflowError
  | f => Ok f
  end.

Definition py_to_float (v : pyval) : outcome spec_float :=
  match v with
  | PyInt z => py_float_of_int z
  | PyFloat f => Ok f
  end.

(** [a * b] *)
Definition py_mul (a b : pyval) : outcome pyval :=
  match a, b with
  | PyInt x, PyInt y => Ok (PyInt (x * y))
  | _, _ =>
      obind (py_to_float a) (fun fa =>
      obind (py_to_float b) (fun fb =>
      Ok (PyFloat (PyFloat.mul fa fb))))
  end.

(** [a + b] *)
Definition py_add (a b : pyval) : outcome pyval :=
  match a, b with
  | PyInt x, PyInt y => Ok (PyInt (x + y))
  | _, _ =>
      obind (py_to_float a) (fun fa =>
      obind (py_to_float b) (fun fb =>
      Ok (PyFloat (PyFloat.add fa fb))))
  end.

(** [a - b] *)
Definition py_sub (a b : pyval) : outcome pyval :=
  match a, b with
  | PyInt x, PyInt y => Ok (PyInt (x - y))
  | _, _ =>
      obind (py_to_float a) (fun fa =>
      obind (py_to_float b) (fun fb =>
      Ok (PyFloat (PyFloat.sub fa fb))))
  end.

(** [a / b]: true division, always a float. *)
Definition py_truediv (a b : pyval) : outcome pyval :=
  match a, b with
  | PyInt x, PyInt y =>
      if y =? 0 then Raise ZeroDivisionError
      else
        match PyFloat.div_Z x y with
        | S754_infinity _ => Raise OverflowError
        | q => Ok (PyFloat q)
        end
  | _, _ =>
      obind (py_to_float a) (fun fa =>
      obind (py_to_float b) (fun fb =>
      if PyFloat.is_zero fb then Raise ZeroDivisionError
      else Ok (PyFloat (PyFloat.div fa fb))))
  end.

(** [math.trunc(v)] and [int(v)]: toward zero; [ValueError] on a NaN and
    [OverflowError] on an infinity. *)
Definition py_trunc (v : pyval) : outcome Z :=
  match v with
  | PyInt z => Ok z
  | PyFloat (S754_zero _) => Ok 0
  | PyFloat (S754_finite s m e) => Ok (PyFloat.trunc_finite s m e)
  | PyFloat (S754_infinity _) => Raise OverflowError
  | PyFloat S754_nan => Raise ValueError
  end.

(** [a == b]: ints and floats are compared by their exact values. *)
Definition py_eq (a b : pyval) : bool :=
  match a, b with
  | PyInt x, PyInt y => x =? y
  | PyFloat f, PyFloat g => PyFloat.eqb f g
  | PyFloat (S754_zero _), PyInt y | PyInt y, PyFloat (S754_zero _) => y =? 0
  | PyFloat (S754_finite s m e), PyInt y
  | PyInt y, PyFloat (S754_finite s m e) =>
      PyFloat.is_integral m e && (PyFloat.trunc_finite s m e =? y)
  | _, _ => false
  end.

(** [x in l] for a list [l]. *)
Definition py_in (x : pyval) (l : list pyval) : bool := existsb (py_eq x) l.

(** [a << n] on ints; a negative shift count raises [ValueError]. *)
Definition py_lshift (a n : Z) : outcome Z :=
  if n <? 0 then Raise ValueError else Ok (Z.shiftl a n).

(** ** The world: files, standard output, random generator *)

Inductive io_event : Type :=
| EvOpenRead (path : string)
| EvOpenWrite (path : string)
| EvStat (path : string)
| EvRead (path : string) (nbytes : Z)
| EvWrite (path : string) (text : string)
| EvClose (path : string).

Record world : Type := mkWorld {
  fs : gmap string (list byte);      (* path -> contents *)
  stdout : list string;              (* lines printed so far *)
  io_log : list io_event;            (* file operations so far, oldest first *)
  entropy : nat -> bool;             (* the outcomes of the random draws *)
  draws : nat;                       (* calls of [random.choice] so far *)
  dir_exists : string -> bool        (* is the directory that holds this path there *)
}.

(** Computations: a state over the world with Python exceptions. *)
Definition M (A : Type) : Type := world -> outcome A * world.

Definition ret {A : Type} (a : A) : M A := fun w => (Ok a, w).
Definition raise {A : Type} (e : exn) : M A := fun w => (Raise e, w).
Definition bind {A B : Type} (c : M A) (k : A -> M B) : M B :=
  fun w =>
    match c w with
    | (Ok a, w') => k a w'
    | (Raise e, w') => (Raise e, w')
    end.
Definition lift {A : Type} (x : outcome A) : M A := fun w => (x, w).

Declare Scope py_scope.
Delimit Scope py_scope with py.
Notation "x <- c ;; k" := (bind c (fun x => k))
  (at level 100, c at next level, right associativity) : py_scope.
Notation "c ;;; k" := (bind c (fun _ => k))
  (at level 100, right associativity) : py_scope.

(** [random.choice((a, b))]: one draw from the generator. *)
Definition random_choice (a b : Z) : M Z :=
  fun w =>
    (Ok (if entropy w (draws w) then b else a),
     mkWorld (fs w) (stdout w) (io_log w) (entropy w) (S (draws w)) (dir_exists w)).

(** ** The command-line arguments *)

Record Namespace : Type := mkArgs {
  input_encoding : string;
  input_bits : Z;
  output_bits : Z;
  input_file : string;
  output_file : option string;
  table_name : option string;
  sample_rate : Z;
  make_symmetrical : bool
}.

Definition is_float_encoding (args : Namespace) : bool :=
  String.eqb (input_encoding args) "float".

(** ** The conversion loop of [float2mozzi] *)

(** [math.trunc((value * max_output_value) + 0.5)] *)
Definition rescale (max_output_value : Z) (value : pyval) : outcome pyval :=
  obind (py_mul value (PyInt max_output_value)) (fun p =>
  obind (py_add p (PyFloat PyFloat.half)) (fun q =>
  obind (py_trunc q) (fun z => Ok (PyInt z)))).

(** The variables the loop reads and writes.  [cnt_33] is unbound before
    the first iteration; the first statement of the body assigns it. *)
Record loop_state : Type := mkLoop {
  cnt_33 : Z;
  out_values : list pyval
}.

(** One iteration of [for value in in_values:]. *)
Definition loop_body (args : Namespace) (max_output_value : Z)
    (st : loop_state) (value : pyval) : M loop_state :=
  (let st := mkLoop 0 (out_values st) in                       (* cnt_33 = 0 *)
   v <- lift (if is_float_encoding args
              then rescale max_output_value value
              else Ok value) ;;
   let st := mkLoop (cnt_33 st) (out_values st ++ [v]) in      (* append *)
   if py_eq value (PyInt 33) then
     let st := mkLoop (cnt_33 st + 1) (out_values st) in       (* cnt_33 += 1 *)
     if cnt_33 st =? 3 then
       c <- random_choice 32 34 ;;
       let st := mkLoop (cnt_33 st) (out_values st ++ [PyInt c]) in
       ret (mkLoop 0 (out_values st))                          (* cnt_33 = 0 *)
     else ret st
   else ret (mkLoop 0 (out_values st)))%py.                    (* cnt_33 = 0 *)

Fixpoint for_each {S A : Type} (body : S -> A -> M S) (l : list A) (st : S) : M S :=
  match l with
  | [] => ret st
  | x :: rest => (st' <- body st x ;; for_each body rest st')%py
  end.

(** From [out_values = []] to the end of the [for] loop. *)
Definition convert_loop (args : Namespace) (max_output_value : Z)
    (in_values : list pyval) : M (list pyval) :=
  (st <- for_each (loop_body args max_output_value) in_values (mkLoop 0 []) ;;
   ret (out_values st))%py.

(** ** Files *)

Definition log_event (ev : io_event) (w : world) : world :=
  mkWorld (fs w) (stdout w) (io_log w ++ [ev]) (entropy w) (draws w) (dir_exists w).

Definition set_fs (f : gmap string (list byte)) (w : world) : world :=
  mkWorld f (stdout w) (io_log w) (entropy w) (draws w) (dir_exists w).

(** [path.open("rb")] *)
Definition open_rb (path : string) : M unit :=
  fun w =>
    let w := log_event (EvOpenRead path) w in
    match fs w !! path with
    | Some _ => (Ok tt, w)
    | None => (Raise (FileNotFoundError path), w)
    end.

(** Can [path] be opened for writing: the file is there already, or the
    directory that would hold it is.  (Permissions, and a path that
    names a directory, are outside the model.) *)
Definition writable (w : world) (path : string) : bool :=
  match fs w !! path with
  | Some _ => true
  | None => dir_exists w path
  end.

(** [path.open("w")]: the file is created, or emptied when it exists;
    [FileNotFoundError] when its directory is missing. *)
Definition open_w (path : string) : M unit :=
  fun w =>
    let w := log_event (EvOpenWrite path) w in
    if writable w path
    then (Ok tt, set_fs (<[path := []]> (fs w)) w)
    else (Raise (FileNotFoundError path), w).

Definition close (path : string) (w : world) : world :=
  log_event (EvClose path) w.

(** [path.stat().st_size] *)
Definition stat_size (path : string) : M Z :=
  fun w =>
    let w := log_event (EvStat path) w in
    match fs w !! path with
    | Some content => (Ok (Z.of_nat (length content)), w)
    | None => (Raise (FileNotFoundError path), w)
    end.

(** [f.read(nbytes)] on a file opened at its start. *)
Definition file_read (path : string) (nbytes : Z) : M (list byte) :=
  fun w =>
    let w := log_event (EvRead path nbytes) w in
    match fs w !! path with
    | Some content => (Ok (firstn (Z.to_nat nbytes) content), w)
    | None => (Ok [], w)
    end.

(** [f.write(text)] *)
Definition file_write (path : string) (text : string) : M unit :=
  fun w =>
    let w := log_event (EvWrite path text) w in
    let old := default [] (fs w !! path) in
    (Ok tt, set_fs (<[path := old ++ list_byte_of_string text]> (fs w)) w).

(** [print(text)] *)
Definition print (text : string) : M unit :=
  fun w =>
    (Ok tt,
     mkWorld (fs w) (stdout w ++ [text]) (io_log w) (entropy w) (draws w) (dir_exists w)).

(** [with input_path.open("rb") as fin, output_path.open("w") as fout:]
    both files are closed on every way out of the body, the last opened
    first. *)
Definition with_open {A : Type} (input_path output_path : string) (body : M A) : M A :=
  fun w =>
    match open_rb input_path w with
    | (Raise e, w1) => (Raise e, w1)
    | (Ok _, w1) =>
        match open_w output_path w1 with
        | (Raise e, w2) => (Raise e, close input_path w2)
        | (Ok _, w2) =>
            let (r, w3) := body w2 in
            (r, close input_path (close output_path w3))
        end
    end.

(** ** The [array] module: fixed-width decoding *)

(** The type codes the script uses, on the usual platforms: items in
    native byte order, taken little-endian; [b], [h] and [i] signed ints
    of 1, 2 and 4 bytes; [f] an IEEE-754 binary32 float. *)
Inductive typecode : Type := tc_b | tc_h | tc_i | tc_f.

(** [array.array(array_type)]: anything but a one-letter type code is a
    [TypeError]. *)
Definition array_array (array_type : string) : outcome typecode :=
  if String.eqb array_type "b" then Ok tc_b
  else if String.eqb array_type "h" then Ok tc_h
  else if String.eqb array_type "i" then Ok tc_i
  else if String.eqb array_type "f" then Ok tc_f
  else Raise TypeError.

Definition itemsize (tc : typecode) : nat :=
  match tc with
  | tc_b => 1
  | tc_h => 2
  | tc_i => 4
  | tc_f => 4
  end%nat.

(** The unsigned value of a little-endian byte string. *)
Fixpoint le_unsigned (bs : list byte) : Z :=
  match bs with
  | [] => 0
  | b :: rest => Z.of_N (Byte.to_N b) + 256 * le_unsigned rest
  end.

(** Two's complement reading of a [bits]-bit pattern. *)
Definition to_signed (bits u : Z) : Z :=
  if u <? 2 ^ (bits - 1) then u else u - 2 ^ bits.

(** An IEEE-754 binary32 pattern as the double of the same value. *)
Definition decode_f32 (u : Z) : spec_float :=
  let sign := Z.testbit u 31 in
  let ex := Z.land (Z.shiftr u 23) 255 in
  let frac := Z.land u (Z.ones 23) in
  if ex =? 255 then
    if frac =? 0 then S754_infinity sign else S754_nan
  else if ex =? 0 then
    if frac =? 0 then S754_zero sign
    else binary_normalize PyFloat.prec PyFloat.emax (cond_Zopp sign frac) (-149) false
  else
    binary_normalize PyFloat.prec PyFloat.emax
      (cond_Zopp sign (frac + 2 ^ 23)) (ex - 150) false.

Definition decode_item (tc : typecode) (bs : list byte) : pyval :=
  match tc with
  | tc_b => PyInt (to_signed 8 (le_unsigned bs))
  | tc_h => PyInt (to_signed 16 (le_unsigned bs))
  | tc_i => PyInt (to_signed 32 (le_unsigned bs))
  | tc_f => PyFloat (decode_f32 (le_unsigned bs))
  end.

(** [count] consecutive items of [size] bytes each. *)
Fixpoint chunks (count size : nat) (bs : list byte) : list (list byte) :=
  match count with
  | O => []
  | S count' => firstn size bs :: chunks count' size (skipn size bs)
  end.

Definition decode_items (tc : typecode) (bs : list byte) : list pyval :=
  map (decode_item tc) (chunks (length bs / itemsize tc) (itemsize tc) bs).

(** [arr.fromfile(fin, n)]: reads [n] items' worth of bytes and appends the
    items read.  When the file gives fewer bytes the items are appended
    all the same and [EOFError] is raised afterwards: the result is the
    array after the call, with [true] when [EOFError] is raised.  Bytes
    that do not make whole items are a [ValueError], a negative count
    too; the array is then unchanged. *)
Definition array_fromfile (tc : typecode) (arr : list pyval) (fin : string) (n : Z)
  : M (list pyval * bool) :=
  (if n <? 0 then raise ValueError
   else
     let nbytes := n * Z.of_nat (itemsize tc) in
     b <- file_read fin nbytes ;;
     if negb (Nat.eqb (length b mod itemsize tc) 0) then raise ValueError
     else ret (arr ++ decode_items tc b,
               negb (Z.of_nat (length b) =? nbytes)))%py.

(** ** Strings *)

(** The line feed and the double quote. *)
Definition nl : string := String (ascii_of_nat 10) EmptyString.
Definition dquote : string := String (ascii_of_nat 34) EmptyString.

(** [str(z)] for an int. *)
Definition str_int (z : Z) : string := NilZero.string_of_int (Z.to_int z).

Fixpoint str_map (f : ascii -> ascii) (s : string) : string :=
  match s with
  | EmptyString => EmptyString
  | String c rest => String (f c) (str_map f rest)
  end.

(** [s.replace("-", "_")] *)
Definition replace_hyphens (s : string) : string :=
  str_map (fun c => if Ascii.eqb c "-" then "_"%char else c) s.

(** [s.upper()] on ASCII strings: the letters a-z become A-Z and nothing
    else changes.  On other strings Python's [str.upper] follows the
    Unicode case mappings; the script's own call is the parameter
    [str_upper] of the section below, and [upper] is what it computes on
    ASCII strings. *)
Definition upper_char (c : ascii) : ascii :=
  let n := nat_of_ascii c in
  if ((97 <=? n) && (n <=? 122))%nat then ascii_of_nat (n - 32) else c.
Definition upper (s : string) : string := str_map upper_char s.

(** ** The symmetry pass *)

(** [(value - in_min) * (out_max - out_min) / (in_max - in_min) + out_min] *)
Definition remap (in_min in_max out_min out_max : Z) (value : pyval) : outcome pyval :=
  obind (py_sub value (PyInt in_min)) (fun a =>
  obind (py_sub (PyInt out_max) (PyInt out_min)) (fun b =>
  obind (py_mul a b) (fun c =>
  obind (py_sub (PyInt in_max) (PyInt in_min)) (fun d =>
  obind (py_truediv c d) (fun q =>
  py_add q (PyInt out_min)))))).

(** The items of a generator, in order, up to the first exception. *)
Fixpoint omap {A B : Type} (f : A -> outcome B) (l : list A) : outcome (list B) :=
  match l with
  | [] => Ok []
  | x :: rest =>
      obind (f x) (fun y => obind (omap f rest) (fun ys => Ok (y :: ys)))
  end.

(** The body of [if args.make_symmetrical:]; the generator it builds is
    consumed once, by the [join] that follows. *)
Definition symmetrical (max_output_value : Z) (out_values : list pyval)
  : outcome (list pyval) :=
  let value_to_remove := - max_output_value - 1 in
  if py_in (PyInt value_to_remove) out_values then
    let in_min := value_to_remove in
    let in_max := max_output_value in
    let out_max := max_output_value in
    let out_min := - max_output_value in
    omap (remap in_min in_max out_min out_max) out_values
  else Ok out_values.

(** ** The script *)

Section Script.

(** Functions of the Python standard library that the script calls and
    that are taken as they are: [Path.expanduser], [Path.with_suffix],
    [Path.stem], [str.upper], [textwrap.fill] and [str] of a float. *)
Variable expanduser : string -> string.
Variable with_suffix : string -> string -> string.
Variable stem : string -> string.
Variable str_upper : string -> string.
Variable textwrap_fill : string -> Z -> string.
Variable float_repr : spec_float -> string.

(** [str(v)] *)
Definition str (v : pyval) : string :=
  match v with
  | PyInt z => str_int z
  | PyFloat f => float_repr f
  end.

Definition output_path_of (args : Namespace) : string :=
  match output_file args with
  | Some p => expanduser p
  | None => with_suffix (expanduser (input_file args)) ".h"
  end.

Definition tablename_of (args : Namespace) : string :=
  match table_name args with
  | Some t => t
  | None => str_upper (replace_hyphens (stem (output_path_of args)))
  end.

(** The text of [table] before it is wrapped. *)
Definition table_text (args : Namespace) (tablename : string)
    (out_values : list pyval) : string :=
  "CONSTTABLE_STORAGE(int" +:+ str_int (output_bits args) +:+ "_t) "
    +:+ tablename +:+ "_DATA [] = {"
    +:+ String.concat ", " (map str out_values)
    +:+ "};".

(** The lines written before the loop runs. *)
Definition header_text (tablename : string) (num_cells sample_rate : Z) : string :=
  "#ifndef " +:+ tablename +:+ "_H_" +:+ nl
  +:+ "#define " +:+ tablename +:+ "_H_" +:+ nl +:+ nl
  +:+ "#include <Arduino.h>" +:+ nl
  +:+ "#include " +:+ dquote +:+ "mozzi_pgmspace.h" +:+ dquote +:+ nl +:+ nl
  +:+ "#define " +:+ tablename +:+ "_NUM_CELLS " +:+ str_int num_cells +:+ nl
  +:+ "#define " +:+ tablename +:+ "_SAMPLERATE " +:+ str_int sample_rate
  +:+ nl +:+ nl.

Definition footer_text (tablename : string) : string :=
  nl +:+ nl +:+ "#endif /* " +:+ tablename +:+ "_H_ */" +:+ nl.

Definition array_type_of (args : Namespace) : string :=
  if input_bits args =? 8 then "b"
  else if input_bits args =? 16 then "h"
  else if input_bits args =? 32 then
    (if is_float_encoding args then "f" else "i")
  else "".

(** [int(st_size / (args.input_bits / 8))] *)
Definition num_input_values_of (st_size bits : Z) : outcome Z :=
  obind (py_truediv (PyInt bits) (PyInt 8)) (fun item =>
  obind (py_truediv (PyInt st_size) item) py_trunc).

(** Reading the samples: from [num_input_values = ...] to
    [in_values = valuesfromfile.tolist()]. *)
Definition read_in_values (args : Namespace) (input_path : string)
  : M (list pyval) :=
  (st_size <- stat_size input_path ;;
   num_input_values <- lift (num_input_values_of st_size (input_bits args)) ;;
   let array_type := array_type_of args in
   valuesfromfile <- lift (array_array array_type) ;;
   r <- array_fromfile valuesfromfile [] input_path num_input_values ;;
   (* except EOFError: pass *)
   ret (fst r))%py.

(** Computing the table: from [max_output_value = ...] to the end of
    [if args.make_symmetrical:]. *)
Definition compute_out_values (args : Namespace) (in_values : list pyval)
  : M (list pyval) :=
  (max_output_value <- lift (py_lshift 2 (output_bits args - 2)) ;;
   out_values <- convert_loop args max_output_value in_values ;;
   lift (if make_symmetrical args
         then symmetrical max_output_value out_values
         else Ok out_values))%py.

(** The body of the [with] statement. *)
Definition float2mozzi_body (args : Namespace) (input_path output_path : string)
  : M unit :=
  (print ("opened " +:+ input_path) ;;;
   in_values <- read_in_values args input_path ;;
   let tablename := tablename_of args in
   file_write output_path ("#ifndef " +:+ tablename +:+ "_H_" +:+ nl) ;;;
   file_write output_path ("#define " +:+ tablename +:+ "_H_" +:+ nl +:+ nl) ;;;
   file_write output_path ("#include <Arduino.h>" +:+ nl) ;;;
   file_write output_path
     ("#include " +:+ dquote +:+ "mozzi_pgmspace.h" +:+ dquote +:+ nl +:+ nl) ;;;
   file_write output_path
     ("#define " +:+ tablename +:+ "_NUM_CELLS "
        +:+ str_int (Z.of_nat (length in_values)) +:+ nl) ;;;
   file_write output_path
     ("#define " +:+ tablename +:+ "_SAMPLERATE "
        +:+ str_int (sample_rate args) +:+ nl +:+ nl) ;;;
   out_values <- compute_out_values args in_values ;;
   let table := textwrap_fill (table_text args tablename out_values) 80 in
   file_write output_path table ;;;
   file_write output_path (nl +:+ nl) ;;;
   file_write output_path ("#endif /* " +:+ tablename +:+ "_H_ */" +:+ nl) ;;;
   print ("wrote " +:+ table +:+ " to " +:+ output_path))%py.

Definition float2mozzi (args : Namespace) : M Z :=
  (let input_path := expanduser (input_file args) in
   let output_path := output_path_of args in
   with_open input_path output_path
     (float2mozzi_body args input_path output_path) ;;;
   ret 0)%py.

(** *** The argument parser *)

(** The command line as [argparse] sees it once each option's [type]
    has been applied; an option that is not given is [None]. *)
Record command_line : Type := mkCmd {
  cl_input_encoding : option string;
  cl_input_bits : option Z;
  cl_output_bits : option Z;
  cl_input_file : option string;
  cl_output_file : option string;
  cl_table_name : option string;
  cl_sample_rate : option Z;
  cl_make_symmetrical : bool
}.

Definition encoding_choices : list string := ["float"; "int"].
Definition bits_choices : list Z := [8; 16; 32].

Definition string_in (s : string) (l : list string) : bool :=
  existsb (String.eqb s) l.
Definition Z_in (z : Z) (l : list Z) : bool := existsb (Z.eqb z) l.

(** [parser.parse_args()]: a value outside an option's [choices], or a
    missing positional, ends the program with status 2. *)
Definition parse_args (cl : command_line) : outcome Namespace :=
  let enc := default "int" (cl_input_encoding cl) in
  let ib := default 8 (cl_input_bits cl) in
  let ob := default 8 (cl_output_bits cl) in
  if negb (string_in enc encoding_choices) then Raise (SystemExit 2)
  else if negb (Z_in ib bits_choices) then Raise (SystemExit 2)
  else if negb (Z_in ob bits_choices) then Raise (SystemExit 2)
  else
    match cl_input_file cl with
    | None => Raise (SystemExit 2)
    | Some f =>
        Ok (mkArgs enc ib ob f (cl_output_file cl) (cl_table_name cl)
              (default 16384 (cl_sample_rate cl)) (cl_make_symmetrical cl))
    end.

(** [sys.exit(float2mozzi(parser.parse_args()))] *)
Definition main (cl : command_line) : M unit :=
  (args <- lift (parse_args cl) ;;
   status <- float2mozzi args ;;
   raise (SystemExit status))%py.

End Script.

(** ** Notions used in the statements *)

(** What one iteration of the loop appends for [value]. *)
Definition convert_value (args : Namespace) (max_output_value : Z) (value : pyval)
  : outcome pyval :=
  if is_float_encoding args then rescale max_output_value value else Ok value.

(** The parser's defaults for a given input file. *)
Definition default_args (input_file : string) : Namespace :=
  mkArgs "int" 8 8 input_file None None 16384 false.

(** A world with the given files, nothing printed, no file operation
    yet, and in which every directory exists. *)
Definition initial_world (files : gmap string (list byte)) (entropy : nat -> bool) : world :=
  mkWorld files [] [] entropy 0 (fun _ => true).

(** [v] is an int of the signed [bits]-bit range. *)
Definition fits_signed (bits : Z) (v : pyval) : Prop :=
  match v with
  | PyInt z => - 2 ^ (bits - 1) <= z <= 2 ^ (bits - 1) - 1
  | PyFloat _ => False
  end.

(** [v] is a number between [lo] and [hi], bounds included. *)
Definition within (lo hi : Z) (v : pyval) : bool :=
  match v with
  | PyInt z => (lo <=? z) && (z <=? hi)
  | PyFloat f => PyFloat.leb (PyFloat.of_Z lo) f && PyFloat.leb f (PyFloat.of_Z hi)
  end.

(** No three consecutive items are equal to 33. *)
Fixpoint no_triple_33 (l : list pyval) : bool :=
  match l with
  | a :: ((b :: c :: _) as rest) =>
      negb (py_eq a (PyInt 33) && py_eq b (PyInt 33) && py_eq c (PyInt 33))
      && no_triple_33 rest
  | _ => true
  end.

(** The samples a file of the given contents decodes to. *)
Definition decoded_sequence (args : Namespace) (content : list byte) : list pyval :=
  match array_array (array_type_of args) with
  | Ok tc => decode_items tc content
  | Raise _ => []
  end.

(** The dither pass as the specification words it: the count of
    consecutive 33s is kept from one sample to the next, the third 33 of a
    run is followed by a drawn 32 or 34, and the count starts again. *)
Fixpoint spec_dither_pass (entropy : nat -> bool) (draws : nat) (cnt : Z)
    (l : list Z) : list Z :=
  match l with
  | [] => []
  | v :: rest =>
      if v =? 33 then
        if cnt + 1 =? 3 then
          v :: (if entropy draws then 34 else 32)
            :: spec_dither_pass entropy (S draws) 0 rest
        else v :: spec_dither_pass entropy draws (cnt + 1) rest
      else v :: spec_dither_pass entropy draws 0 rest
  end.

(** Stand-ins for the library functions on plain ASCII file names (no
    directory, no [~]) and on short single-spaced lines, used to run the
    script on concrete inputs; [upper] stands in for [str.upper]. *)
Fixpoint has_dot (s : string) : bool :=
  match s with
  | EmptyString => false
  | String c rest => Ascii.eqb c "." || has_dot rest
  end.

(** [s] up to its last dot; [s] itself when nothing follows that dot. *)
Fixpoint strip_suffix (s : string) : string :=
  match s with
  | EmptyString => EmptyString
  | String c rest =>
      if Ascii.eqb c "." && negb (has_dot rest) then
        match rest with
        | EmptyString => s
        | _ => EmptyString
        end
      else String c (strip_suffix rest)
  end.

Definition plain_stem (name : string) : string :=
  match name with
  | EmptyString => EmptyString
  | String c rest => String c (strip_suffix rest)
  end.
Definition plain_with_suffix (name suffix : string) : string :=
  plain_stem name +:+ suffix.
Definition plain_expanduser (path : string) : string := path.
Definition plain_fill (text : string) (width : Z) : string := text.
Definition plain_float_repr (f : spec_float) : string := "?".

(** Is [c] an ASCII character, that is, a byte below 128? *)
Definition is_ascii (c : ascii) : bool := (nat_of_ascii c <? 128)%nat.

(** Is [c] a lower-case ASCII letter? *)
Definition is_lower (c : ascii) : bool :=
  let n := nat_of_ascii c in ((97 <=? n) && (n <=? 122))%nat.

Fixpoint str_forall (p : ascii -> bool) (s : string) : bool :=
  match s with
  | EmptyString => true
  | String c rest => p c && str_forall p rest
  end.

(** The 258 ints from -129 to 128. *)
Definition int8_domain : list Z := map (fun i => -129 + Z.of_nat i) (seq 0 258).

(** The table as a function of the samples: what [compute_out_values]
    returns. *)
Definition out_values_of (args : Namespace) (in_values : list pyval)
  : outcome (list pyval) :=
  obind (py_lshift 2 (output_bits args - 2)) (fun max_output_value =>
  obind (omap (convert_value args max_output_value) in_values) (fun out_values =>
  if make_symmetrical args
  then symmetrical max_output_value out_values
  else Ok out_values)).

(** The same world with another random generator. *)
Definition reseed (e : nat -> bool) (d : nat) (w : world) : world :=
  mkWorld (fs w) (stdout w) (io_log w) e d (dir_exists w).

(** A computation that neither consults nor advances the generator. *)
Definition oblivious {A : Type} (c : M A) : Prop :=
  forall w e d, c (reseed e d w) = (fst (c w), reseed e d (snd (c w))).

(** The bytes of the file at [path], none when there is no such file. *)
Definition written (path : string) (w : world) : list byte :=
  default [] (fs w !! path).

(** The state of a right shift of [m] by [i] bits: the quotient, and no
    flag raised when nothing was shifted out. *)
Definition shr_state (m i : Z) (r : shr_record) : Prop :=
  shr_m r = m / 2 ^ i
  /\ (m mod 2 ^ i = 0 -> shr_r r = false /\ shr_s r = false).

(** The six texts written before the loop, one per [fout.write]. *)
Definition header_lines (tablename : string) (num_cells sample_rate : Z) : list string :=
  [ "#ifndef " +:+ tablename +:+ "_H_" +:+ nl;
    "#define " +:+ tablename +:+ "_H_" +:+ nl +:+ nl;
    "#include <Arduino.h>" +:+ nl;
    "#include " +:+ dquote +:+ "mozzi_pgmspace.h" +:+ dquote +:+ nl +:+ nl;
    "#define " +:+ tablename +:+ "_NUM_CELLS " +:+ str_int num_cells +:+ nl;
    "#define " +:+ tablename +:+ "_SAMPLERATE " +:+ str_int sample_rate +:+ nl +:+ nl ].

(** The world after the texts have been written to [path], in order. *)
Definition write_lines (path : string) (texts : list string) (w : world) : world :=
  fold_left (fun w text => snd (file_write path text w)) texts w.

(** The bytes of the texts, one after the other. *)
Definition bytes_of_lines (texts : list string) : list byte :=
  concat (map list_byte_of_string texts).

(** The file operations that neither open nor close a file. *)
Definition is_data_event (ev : io_event) : bool :=
  match ev with
  | EvStat _ | EvRead _ _ | EvWrite _ _ => true
  | _ => false
  end.

(** The arguments with another setting of [--make-symmetrical]. *)
Definition with_make_symmetrical (b : bool) (args : Namespace) : Namespace :=
  mkArgs (input_encoding args) (input_bits args) (output_bits args) (input_file args)
         (output_file args) (table_name args) (sample_rate args) b.

(** The widths the parser permits. *)
Definition valid_bits (bits : Z) : Prop := bits = 8 \/ bits = 16 \/ bits = 32.

(** What is left of the input when it is read: nothing when the output
    path is the input path, since opening the output empties the file. *)
Definition content_when_read (input_path output_path : string) (content : list byte)
  : list byte :=
  if String.eqb output_path input_path then [] else content.

(** A sample that is a NaN or an infinity. *)
Definition is_nan_or_infinity (v : pyval) : bool :=
  match v with
  | PyFloat S754_nan | PyFloat (S754_infinity _) => true
  | _ => false
  end.

(** [math.trunc(x * 2^k + 0.5)] computed in integer arithmetic, without
    rounding, for the finite binary32 number [x] of bit pattern [u]:
    [x * 2^k] is [N * 2^E] with [N] the signed significand. *)
Definition exact_rescale_f32 (k u : Z) : Z :=
  let sign := Z.testbit u 31 in
  let ex := Z.land (Z.shiftr u 23) 255 in
  let frac := Z.land u (Z.ones 23) in
  let N := cond_Zopp sign (if ex =? 0 then frac else frac + 2 ^ 23) in
  let E := (if ex =? 0 then -149 else ex - 150) + k in
  if 0 <=? E then Z.quot (2 * (N * 2 ^ E) + 1) 2
  else Z.quot (2 * N + 2 ^ (- E)) (2 * 2 ^ (- E)).

(** The world once both files of the [with] statement are open: the
    output file is there and empty. *)
Definition opened (input_path output_path : string) (w : world) : world :=
  set_fs (<[output_path := []]> (fs w))
         (log_event (EvOpenWrite output_path) (log_event (EvOpenRead input_path) w)).

(** * Properties *)

(** ** The conversion loop *)

Lemma loop_body_eq args mov st v w :
  loop_body args mov st v w =
  match convert_value args mov v with
  | Ok x => (Ok (mkLoop (if py_eq v (PyInt 33) then 1 else 0) (out_values st ++ [x])), w)
  | Raise e => (Raise e, w)
  end.
Proof.
  unfold loop_body, convert_value, bind, lift.
  destruct (if is_float_encoding args then _ else _) as [x|e]; [|reflexivity].
  cbn [cnt_33 out_values].
  destruct (py_eq v (PyInt 33)); reflexivity.
Qed.

Lemma for_each_loop_body args mov in_values : forall st w,
  (st' <- for_each (loop_body args mov) in_values st ;; ret (out_values st'))%py w =
  (obind (omap (convert_value args mov) in_values)
         (fun xs => Ok (out_values st ++ xs)), w).
Proof.
  induction in_values as [|v rest IH]; intros st w.
  - cbn. now rewrite app_nil_r.
  - cbn [for_each omap]. unfold bind at 1 2. rewrite loop_body_eq.
    destruct (convert_value args mov v) as [x|e]; [|reflexivity].
    specialize (IH (mkLoop (if py_eq v (PyInt 33) then 1 else 0) (out_values st ++ [x])) w).
    unfold bind in IH at 1. cbn [obind].
    destruct (for_each _ rest _ w) as [[st'|e] w'] eqn:E.
    + rewrite IH. cbn [out_values]. destruct (omap _ rest); cbn; [|reflexivity].
      now rewrite <- app_assoc.
    + rewrite IH. cbn [out_values]. destruct (omap _ rest); cbn; [|reflexivity].
      now rewrite <- app_assoc.
Qed.

Lemma convert_loop_eq args mov in_values w :
  convert_loop args mov in_values w = (omap (convert_value args mov) in_values, w).
Proof.
  unfold convert_loop. rewrite for_each_loop_body. cbn.
  destruct (omap _ in_values); reflexivity.
Qed.

Lemma compute_out_values_eq args in_values w :
  compute_out_values args in_values w = (out_values_of args in_values, w).
Proof.
  unfold compute_out_values, out_values_of, bind at 1, lift.
  destruct (py_lshift 2 (output_bits args - 2)) as [m|x]; [|reflexivity].
  unfold bind. rewrite convert_loop_eq. cbn [obind].
  destruct (omap (convert_value args m) in_values); reflexivity.
Qed.

(** ** Exact cases of the double arithmetic *)

Lemma digits2_pos_iter_xO (p : positive) (k : positive) :
  digits2_pos (Pos.iter xO p k) = (digits2_pos p + k)%positive.
Proof.
  revert p. induction k using Pos.peano_ind; intros p.
  - cbn. lia.
  - rewrite Pos.iter_succ. cbn [digits2_pos]. rewrite IHk. lia.
Qed.

Lemma binary_round_aux_canonical (s : bool) (m : positive) (e : Z) :
  Zpos (digits2_pos m) = 53 -> -1074 <= e <= 971 ->
  binary_round_aux 53 1024 s (Zpos m) e loc_Exact = S754_finite s m e.
Proof.
  intros Hd He.
  unfold binary_round_aux, shr_fexp. cbn [Zdigits2 shr_record_of_loc].
  rewrite Hd. unfold fexp, emin.
  replace (Z.max (53 + e - 53) (3 - 1024 - 53) - e) with 0 by lia.
  cbn [shr shr_m loc_of_shr_record round_nearest_even Zdigits2].
  rewrite Hd.
  replace (Z.max (53 + e - 53) (3 - 1024 - 53) - e) with 0 by lia.
  cbn [shr shr_m].
  destruct (Z.leb_spec e (1024 - 53)); [reflexivity | lia].
Qed.

Lemma of_Z_pos (p : positive) :
  Zpos (digits2_pos p) <= 53 ->
  PyFloat.of_Z (Zpos p) =
  S754_finite false (Z.to_pos (Zpos p * 2 ^ (53 - Zpos (digits2_pos p))))
              (Zpos (digits2_pos p) - 53).
Proof.
  intros Hd. unfold PyFloat.of_Z, binary_normalize, binary_round, PyFloat.prec, PyFloat.emax.
  unfold fexp, emin.
  replace (Z.max (Z.pos (digits2_pos p) + 0 - 53) (3 - 1024 - 53))
    with (Zpos (digits2_pos p) - 53) by lia.
  unfold shl_align.
  destruct (Zpos (digits2_pos p) - 53 - 0) eqn:E; try lia.
  - replace (53 - Zpos (digits2_pos p)) with 0 by lia.
    rewrite Z.mul_1_r. cbn [Z.to_pos].
    replace (Zpos (digits2_pos p) - 53) with 0 by lia.
    apply binary_round_aux_canonical; lia.
  - assert (Hm : Pos.iter xO p p0 = Z.to_pos (Zpos p * 2 ^ (53 - Zpos (digits2_pos p)))).
    { replace (53 - Zpos (digits2_pos p)) with (Zpos p0) by lia.
      rewrite <- Pos2Z.inj_pow, <- Pos2Z.inj_mul. cbn [Z.to_pos].
      clear. revert p. induction p0 using Pos.peano_ind; intros p.
      - cbn. lia.
      - rewrite Pos.iter_succ, IHp0, Pos.pow_succ_r. lia. }
    rewrite <- Hm.
    apply binary_round_aux_canonical.
    + rewrite digits2_pos_iter_xO. lia.
    + lia.
Qed.

Lemma div_eucl_exact (a b q : Z) : 0 < b -> a = q * b -> Z.div_eucl a b = (q, 0).
Proof.
  intros Hb ->. 
  pose proof (Z.div_mul q b ltac:(lia)) as Hq.
  pose proof (Z.mod_mul q b ltac:(lia)) as Hr.
  unfold Z.div, Z.modulo in Hq, Hr.
  destruct (Z.div_eucl (q * b) b) as [q' r']. cbn in Hq, Hr. now subst.
Qed.

(** Dividing a normal double by 1.0, 2.0 or 4.0 lowers its exponent. *)
Lemma div_pow2 (m : positive) (e k : Z) :
  Zpos (digits2_pos m) = 53 -> -52 <= e <= 0 -> 0 <= k <= 2 ->
  PyFloat.div (S754_finite false m e) (S754_finite false 4503599627370496 (k - 52))
  = S754_finite false m (e - k).
Proof.
  intros Hd He Hk.
  unfold PyFloat.div, SFdiv, SFdiv_core_binary, PyFloat.prec, PyFloat.emax.
  cbn [Zdigits2]. rewrite Hd.
  change (Zpos (digits2_pos 4503599627370496)) with 53.
  unfold fexp, emin.
  replace (Z.min (Z.max (53 + e - (53 + (k - 52)) - 53) (3 - 1024 - 53)) (e - (k - 52)))
    with (e - 1 - k) by lia.
  replace (e - (k - 52) - (e - 1 - k)) with 53 by lia.
  rewrite (div_eucl_exact _ _ (Zpos (xO m))); [| lia | rewrite Z.shiftl_mul_pow2 by lia; lia].
  cbn [xorb]. change (new_location 4503599627370496 0) with loc_Exact.
  unfold binary_round_aux, shr_fexp. cbn [Zdigits2 digits2_pos shr_record_of_loc].
  unfold fexp, emin.
  replace (Z.max (Zpos (Pos.succ (digits2_pos m)) + (e - 1 - k) - 53) (3 - 1024 - 53) - (e - 1 - k))
    with 1 by lia.
  cbn [shr SpecFloat.iter_pos shr_1 shr_m loc_of_shr_record round_nearest_even orb Zdigits2].
  rewrite Hd.
  replace (Z.max (53 + (e - 1 - k + 1) - 53) (3 - 1024 - 53) - (e - 1 - k + 1)) with 0 by lia.
  cbn [shr shr_m].
  destruct (Z.leb_spec (e - 1 - k + 1) (1024 - 53)); [|lia].
  f_equal. lia.
Qed.

Lemma digits2_pos_bound (p : positive) : Zpos p < 2 ^ Zpos (digits2_pos p).
Proof.
  induction p; cbn [digits2_pos]; rewrite ?Pos2Z.inj_succ, ?Z.pow_succ_r by lia; lia.
Qed.

Lemma digits2_pos_le (p : positive) (n : Z) : 0 <= n -> Zpos p < 2 ^ n -> Zpos (digits2_pos p) <= n.
Proof.
  revert n. induction p; intros n Hn H; cbn [digits2_pos]; rewrite ?Pos2Z.inj_succ.
  - assert (n <> 0) by (intros ->; cbn in H; lia).
    replace n with (Z.succ (n - 1)) in H by lia. rewrite Z.pow_succ_r in H by lia.
    specialize (IHp (n - 1)). lia.
  - assert (n <> 0) by (intros ->; cbn in H; lia).
    replace n with (Z.succ (n - 1)) in H by lia. rewrite Z.pow_succ_r in H by lia.
    specialize (IHp (n - 1)). lia.
  - assert (n <> 0) by (intros ->; cbn in H; lia). lia.
Qed.

(** [int(st_size / (bits / 8))] is the exact quotient below 2^53. *)
Lemma num_input_values_exact (st_size bits : Z) :
  0 <= st_size < 2 ^ 53 -> bits = 8 \/ bits = 16 \/ bits = 32 ->
  num_input_values_of st_size bits = Ok (st_size / (bits / 8)).
Proof.
  intros Hs Hb.
  assert (Hitem : exists k, 0 <= k <= 2 /\ bits / 8 = 2 ^ k /\
            py_truediv (PyInt bits) (PyInt 8) =
            Ok (PyFloat (S754_finite false 4503599627370496 (k - 52)))).
  { destruct Hb as [-> | [-> | ->]];
      [exists 0 | exists 1 | exists 2]; (split; [lia | split; reflexivity]). }
  destruct Hitem as (k & Hk & Hq & Hitem).
  unfold num_input_values_of. rewrite Hitem, Hq. cbn [obind].
  destruct st_size as [|p|p]; [| |lia].
  - cbn. rewrite Z.div_0_l; [reflexivity|]. apply Z.pow_nonzero; lia.
  - assert (Hd : Zpos (digits2_pos p) <= 53) by (apply digits2_pos_le; lia).
    unfold py_truediv, py_to_float, py_float_of_int. rewrite of_Z_pos by exact Hd.
    cbn [obind PyFloat.is_zero].
    set (d := Zpos (digits2_pos p)) in *.
    assert (Hp : 0 < Zpos p * 2 ^ (53 - d)) by (apply Z.mul_pos_pos; [lia | apply Z.pow_pos_nonneg; lia]).
    rewrite div_pow2; [| | lia | lia].
    + cbn [py_trunc]. unfold PyFloat.trunc_finite. cbn [cond_Zopp].
      rewrite Z2Pos.id by exact Hp.
      destruct (Z.leb_spec 0 (d - 53 - k)).
      * assert (d = 53) by lia. assert (k = 0) by lia. subst k.
        replace (d - 53 - 0) with 0 by lia. replace (53 - d) with 0 by lia.
        rewrite Z.shiftl_0_r. change (2 ^ 0) with 1.
        now rewrite Z.mul_1_r, Z.div_1_r.
      * rewrite Z.shiftr_div_pow2 by lia.
        replace (- (d - 53 - k)) with ((53 - d) + k) by lia.
        rewrite Z.pow_add_r by lia.
        rewrite Z.mul_comm.
        rewrite Z.div_mul_cancel_l; [reflexivity | | ]; apply Z.pow_nonzero; lia.
    + (* the mantissa has 53 digits *)
      destruct (Z.eq_dec d 53) as [E|E].
      * rewrite E. change (2 ^ (53 - 53)) with 1. rewrite Z.mul_1_r. exact E.
      * assert (Hsh : exists q, 53 - d = Zpos q) by (exists (Z.to_pos (53 - d)); lia).
        destruct Hsh as [q Hq']. rewrite Hq'.
        assert (Hm : Z.to_pos (Zpos p * 2 ^ Zpos q) = Pos.iter xO p q).
        { rewrite <- Pos2Z.inj_pow, <- Pos2Z.inj_mul. cbn [Z.to_pos].
          clear. revert p. induction q using Pos.peano_ind; intros p.
          - cbn. lia.
          - rewrite Pos.iter_succ, <- IHq, Pos.pow_succ_r. lia. }
        rewrite Hm, digits2_pos_iter_xO. fold d. lia.
Qed.

Lemma length_chunks (n k : nat) (l : list byte) : length (chunks n k l) = n.
Proof. revert l. induction n; intros l; cbn; [reflexivity | now rewrite IHn]. Qed.

Lemma chunks_firstn (n k : nat) (l : list byte) :
  chunks n k (firstn (n * k) l) = chunks n k l.
Proof.
  revert l. induction n as [|n IH]; intros l; [reflexivity|].
  cbn [chunks]. f_equal.
  - rewrite firstn_firstn. f_equal. lia.
  - change (S n * k)%nat with (k + n * k)%nat.
    rewrite skipn_firstn_comm. replace (k + n * k - k)%nat with (n * k)%nat by lia.
    apply IH.
Qed.

Lemma array_type_ok (args : Namespace) :
  input_bits args = 8 \/ input_bits args = 16 \/ input_bits args = 32 ->
  exists tc, array_array (array_type_of args) = Ok tc /\
             Z.of_nat (itemsize tc) = input_bits args / 8.
Proof.
  unfold array_type_of.
  intros [H | [H | H]]; rewrite H; cbn.
  - exists tc_b. split; reflexivity.
  - exists tc_h. split; reflexivity.
  - destruct (is_float_encoding args); [exists tc_f | exists tc_i]; split; reflexivity.
Qed.

Lemma read_in_values_ok (args : Namespace) (input_path : string) (w : world)
    (content : list byte) (tc : typecode) :
  fs w !! input_path = Some content ->
  Z.of_nat (length content) < 2 ^ 53 ->
  input_bits args = 8 \/ input_bits args = 16 \/ input_bits args = 32 ->
  array_array (array_type_of args) = Ok tc ->
  Z.of_nat (itemsize tc) = input_bits args / 8 ->
  read_in_values args input_path w =
  (Ok (decode_items tc content),
   log_event (EvRead input_path
                (Z.of_nat (length content) / (input_bits args / 8) * (input_bits args / 8)))
     (log_event (EvStat input_path) w)).
Proof.
  intros Hfs Hsz Hbits Htc Hitem.
  unfold read_in_values, bind at 1, stat_size.
  cbn [fs log_event]. rewrite Hfs.
  unfold bind at 1, lift.
  rewrite num_input_values_exact by (auto; lia).
  unfold bind at 1. rewrite Htc.
  unfold bind at 1, array_fromfile.
  rewrite <- Hitem.
  set (n := Z.of_nat (length content) / Z.of_nat (itemsize tc)).
  assert (Hk : 0 < Z.of_nat (itemsize tc)) by (destruct tc; cbn; lia).
  assert (Hn : 0 <= n) by (apply Z.div_pos; lia).
  destruct (Z.ltb_spec n 0); [lia|].
  unfold bind at 1, file_read. cbn [fs log_event]. rewrite Hfs.
  assert (Hnat : Z.to_nat (n * Z.of_nat (itemsize tc))
                 = (length content / itemsize tc * itemsize tc)%nat).
  { unfold n. rewrite <- Nat2Z.inj_div, <- Nat2Z.inj_mul. apply Nat2Z.id. }
  rewrite Hnat.
  assert (Hle : (length content / itemsize tc * itemsize tc <= length content)%nat).
  { rewrite Nat.mul_comm. apply Nat.Div0.mul_div_le. }
  rewrite length_firstn, Nat.min_l by exact Hle.
  rewrite Nat.Div0.mod_mul. cbn [Nat.eqb negb].
  unfold ret. cbn [fst app]. f_equal. f_equal.
  unfold decode_items. rewrite length_firstn, Nat.min_l by exact Hle.
  rewrite Nat.div_mul by (destruct tc; discriminate).
  now rewrite chunks_firstn.
Qed.

Lemma omap_length {A B : Type} (f : A -> outcome B) (l : list A) (out : list B) :
  omap f l = Ok out -> length out = length l.
Proof.
  revert out. induction l as [|x rest IH]; intros out H; cbn in H.
  - now inversion H.
  - destruct (f x) as [y|e]; [|discriminate]. cbn in H.
    destruct (omap f rest) as [ys|e]; [|discriminate]. cbn in H.
    inversion H; subst. cbn. f_equal. now apply IH.
Qed.

Lemma omap_Ok {A : Type} (l : list A) : omap (fun x => Ok x) l = Ok l.
Proof. induction l as [|x rest IH]; cbn; [reflexivity | now rewrite IH]. Qed.

Lemma omap_ext {A B : Type} (f g : A -> outcome B) (l : list A) :
  (forall x, f x = g x) -> omap f l = omap g l.
Proof. intros H. induction l as [|x rest IH]; cbn; [reflexivity | now rewrite H, IH]. Qed.

(** ** The dither *)

(** C1 (the code departs from the claim).  On the integer sequences
    [33,33,33] and [33,33,34,33,33,33] the loop of [float2mozzi] returns
    its input unchanged, of length 3 and 6, and draws nothing: no element
    is inserted after the third 33.  The dither as the specification
    words it gives four elements on [33,33,33], the last one 32 or 34. *)
Theorem triple_33_is_left_undithered (w : world) :
  convert_loop (default_args "in.raw") 128 (map PyInt [33; 33; 33]) w
    = (Ok (map PyInt [33; 33; 33]), w)
  /\ convert_loop (default_args "in.raw") 128 (map PyInt [33; 33; 34; 33; 33; 33]) w
    = (Ok (map PyInt [33; 33; 34; 33; 33; 33]), w)
  /\ (exists x, spec_dither_pass (entropy w) (draws w) 0 [33; 33; 33] = [33; 33; 33; x]
                /\ (x = 32 \/ x = 34))
  /\ (exists x, spec_dither_pass (entropy w) (draws w) 0 [33; 33; 34; 33; 33; 33]
                = [33; 33; 34; 33; 33; 33; x] /\ (x = 32 \/ x = 34)).
Proof.
  split; [|split; [|split]].
  - now rewrite convert_loop_eq.
  - now rewrite convert_loop_eq.
  - cbn. destruct (entropy w (draws w)); eexists; split; eauto.
  - cbn. destruct (entropy w (draws w)); eexists; split; eauto.
Qed.

(** C2.  Whatever the input sequence, the loop appends one element per
    input value and no other: its result is the list of the converted
    values, in order, or the first exception a conversion raises; the
    world, and so the count of draws of [random.choice], is left as it
    was; a returned sequence has the length of the input; and with the
    integer encoding the loop always returns, with the input itself. *)
Theorem loop_appends_one_element_per_value
    (args : Namespace) (max_output_value : Z) (in_values : list pyval) (w : world) :
  snd (convert_loop args max_output_value in_values w) = w
  /\ draws (snd (convert_loop args max_output_value in_values w)) = draws w
  /\ fst (convert_loop args max_output_value in_values w)
     = omap (convert_value args max_output_value) in_values
  /\ (forall out, fst (convert_loop args max_output_value in_values w) = Ok out ->
                  length out = length in_values)
  /\ (is_float_encoding args = false ->
      fst (convert_loop args max_output_value in_values w) = Ok in_values).
Proof.
  rewrite convert_loop_eq. cbn [fst snd].
  split; [reflexivity|]. split; [reflexivity|]. split; [reflexivity|]. split.
  - intros out H. now apply omap_length in H.
  - intros Henc. unfold convert_value. rewrite Henc. apply omap_Ok.
Qed.

Lemma loop_appends_one_element_per_value_witness :
  let w := initial_world ∅ (fun _ => true) in
  let r := convert_loop (default_args "in.raw") 128 (map PyInt [33; 33; 33]) w in
  snd r = w /\ draws (snd r) = 0%nat /\ length (map PyInt [33; 33; 33]) = 3%nat
  /\ fst r = Ok (map PyInt [33; 33; 33]).
Proof.
  pose proof (loop_appends_one_element_per_value
                (default_args "in.raw") 128 (map PyInt [33; 33; 33])
                (initial_world ∅ (fun _ => true))) as (Hw & Hd & _ & Hlen & Hint).
  cbv zeta. split; [exact Hw|]. split; [exact Hd|]. split; [reflexivity|].
  apply Hint. reflexivity.
Defined.

(** ** Rescaling *)



(** ** The decoder *)

(** C7.  For a file of fewer than 2^53 bytes (the quotient
    [st_size / (input_bits / 8)] is computed on doubles and is exact
    there) and an input width of 8, 16 or 32 bits, reading the samples
    raises nothing and gives as many values as [content] has whole
    samples, [len(content) // (input_bits / 8)]: the whole samples of
    the file in order, the bytes of a trailing partial sample being left
    out.  The files are left as they were. *)
Theorem decoder_sample_count
    (args : Namespace) (input_path : string) (w : world) (content : list byte) :
  fs w !! input_path = Some content ->
  Z.of_nat (length content) < 2 ^ 53 ->
  input_bits args = 8 \/ input_bits args = 16 \/ input_bits args = 32 ->
  exists in_values w',
    read_in_values args input_path w = (Ok in_values, w')
    /\ Z.of_nat (length in_values) = Z.of_nat (length content) / (input_bits args / 8)
    /\ in_values = decoded_sequence args content
    /\ in_values = decoded_sequence args
                     (firstn (Z.to_nat (Z.of_nat (length content) / (input_bits args / 8)
                                        * (input_bits args / 8))) content)
    /\ fs w' = fs w.
Proof.
  intros Hfs Hsz Hbits.
  destruct (array_type_ok args Hbits) as (tc & Htc & Hitem).
  eexists. eexists.
  split; [apply (read_in_values_ok args input_path w content tc); assumption|].
  unfold decoded_sequence. rewrite Htc.
  split; [|split; [reflexivity|split; [|reflexivity]]].
  - unfold decode_items. rewrite length_map, length_chunks, <- Hitem.
    apply Nat2Z.inj_div.
  - rewrite <- Hitem, <- Nat2Z.inj_div, <- Nat2Z.inj_mul, Nat2Z.id.
    unfold decode_items.
    assert (Hle : (length content / itemsize tc * itemsize tc <= length content)%nat).
    { rewrite Nat.mul_comm. apply Nat.Div0.mul_div_le. }
    rewrite length_firstn, Nat.min_l by exact Hle.
    rewrite Nat.div_mul by (destruct tc; discriminate).
    now rewrite chunks_firstn.
Qed.

Lemma decoder_sample_count_witness :
  exists in_values w',
    read_in_values (mkArgs "int" 16 8 "in.raw" None None 16384 false) "in.raw"
      (initial_world {[ "in.raw" := [x0a; xfb; x21; x21; x21] ]} (fun _ => true))
    = (Ok in_values, w')
    /\ Z.of_nat (length in_values) = 2
    /\ in_values = [PyInt (-1270); PyInt 8481].
Proof.
  destruct (decoder_sample_count
              (mkArgs "int" 16 8 "in.raw" None None 16384 false) "in.raw"
              (initial_world {[ "in.raw" := [x0a; xfb; x21; x21; x21] ]} (fun _ => true))
              [x0a; xfb; x21; x21; x21])
    as (in_values & w' & Hrun & Hlen & Hval & _).
  - reflexivity.
  - reflexivity.
  - right. left. reflexivity.
  - exists in_values, w'. split; [exact Hrun|]. split; [exact Hlen|]. exact Hval.
Defined.

(** ** The symmetry pass *)

Lemma omap_Forall {A B : Type} (f : A -> outcome B) (P : A -> Prop) (Q : B -> Prop)
    (l : list A) :
  (forall x, P x -> exists y, f x = Ok y /\ Q y) ->
  Forall P l -> exists out, omap f l = Ok out /\ Forall Q out.
Proof.
  intros Hf. induction 1 as [|x rest Hx _ IH].
  - exists []. split; [reflexivity | constructor].
  - destruct (Hf x Hx) as (y & Hy & HQ). destruct IH as (ys & Hys & HQs).
    exists (y :: ys). cbn. rewrite Hy, Hys. split; [reflexivity | now constructor].
Qed.

Lemma int8_domain_complete (z : Z) : -129 <= z <= 128 -> In z int8_domain.
Proof.
  intros H. unfold int8_domain. apply in_map_iff.
  exists (Z.to_nat (z + 129)). split; [lia|]. apply in_seq. lia.
Qed.

Lemma remap_int8_within (z : Z) :
  -129 <= z <= 128 ->
  exists y, remap (-129) 128 (-128) 128 (PyInt z) = Ok y /\ within (-128) 128 y = true.
Proof.
  intros H.
  assert (Hall : forallb (fun z => match remap (-129) 128 (-128) 128 (PyInt z) with
                                   | Ok y => within (-128) 128 y
                                   | Raise _ => false
                                   end) int8_domain = true) by (vm_compute; reflexivity).
  rewrite forallb_forall in Hall. specialize (Hall z (int8_domain_complete z H)).
  destruct (remap (-129) 128 (-128) 128 (PyInt z)) as [y|e]; [|discriminate].
  now exists y.
Qed.

(** C6 (as amended).  The pass is applied to the result of the loop
    when [--make-symmetrical] is set, and only then.  When the sequence
    contains [-max_output_value - 1] the pass returns, for every element in order, the float
    [(v - in_min) * (out_max - out_min) / (in_max - in_min) + out_min]
    with [in_min = -max_output_value - 1], [in_max = out_max =
    max_output_value] and [out_min = -max_output_value], the division
    being Python's true division.  For 8-bit output ([max_output_value =
    128]) and a sequence of ints between -129 and 128 that contains
    -129, every result lies between -128.0 and 128.0 and -129 gives
    -128.0 exactly.  When [-max_output_value - 1] is absent the sequence
    is returned unchanged. *)
Theorem symmetrical_remaps_or_passes
    (args : Namespace) (in_values : list pyval) (w : world)
    (max_output_value : Z) (out_values : list pyval) :
  compute_out_values args in_values w
  = (obind (py_lshift 2 (output_bits args - 2)) (fun m =>
     obind (omap (convert_value args m) in_values) (fun out =>
     if make_symmetrical args then symmetrical m out else Ok out)), w)
  /\ (py_in (PyInt (- max_output_value - 1)) out_values = true ->
   symmetrical max_output_value out_values
   = omap (remap (- max_output_value - 1) max_output_value
                 (- max_output_value) max_output_value) out_values)
  /\ (max_output_value = 128 ->
      Forall (fun v => exists z, v = PyInt z /\ -129 <= z <= 128) out_values ->
      py_in (PyInt (-129)) out_values = true ->
      exists res, symmetrical max_output_value out_values = Ok res
                  /\ length res = length out_values
                  /\ Forall (fun y => within (-128) 128 y = true) res)
  /\ remap (-129) 128 (-128) 128 (PyInt (-129)) = Ok (PyFloat (PyFloat.of_Z (-128)))
  /\ (py_in (PyInt (- max_output_value - 1)) out_values = false ->
      symmetrical max_output_value out_values = Ok out_values).
Proof.
  split; [apply compute_out_values_eq|]. split; [|split; [|split]].
  - intros Hin. unfold symmetrical. now rewrite Hin.
  - intros -> Hdom Hin. unfold symmetrical.
    change (- (128) - 1) with (-129). rewrite Hin.
    destruct (omap_Forall (remap (-129) 128 (-128) 128)
                (fun v => exists z, v = PyInt z /\ -129 <= z <= 128)
                (fun y => within (-128) 128 y = true) out_values) as (res & Hres & Hall).
    + intros x (z & -> & Hz). now apply remap_int8_within.
    + exact Hdom.
    + exists res. split; [exact Hres|]. split; [now apply omap_length in Hres | exact Hall].
  - reflexivity.
  - intros Hin. unfold symmetrical. now rewrite Hin.
Qed.

Lemma symmetrical_remaps_or_passes_witness :
  (exists res, symmetrical 128 (map PyInt [-129; 0; 128]) = Ok res
               /\ length res = 3%nat
               /\ Forall (fun y => within (-128) 128 y = true) res)
  /\ symmetrical 128 (map PyInt [-128; 0; 128]) = Ok (map PyInt [-128; 0; 128])
  /\ symmetrical 32768 (map PyInt [-32769; 5])
     = omap (remap (-32769) 32768 (-32768) 32768) (map PyInt [-32769; 5]).
Proof.
  split; [|split].
  - destruct (symmetrical_remaps_or_passes (default_args "in.raw") []
                (initial_world ∅ (fun _ => true)) 128 (map PyInt [-129; 0; 128]))
      as (_ & _ & H & _).
    apply H.
    + reflexivity.
    + repeat constructor; eexists; (split; [reflexivity | lia]).
    + reflexivity.
  - destruct (symmetrical_remaps_or_passes (default_args "in.raw") []
                (initial_world ∅ (fun _ => true)) 128 (map PyInt [-128; 0; 128]))
      as (_ & _ & _ & _ & H).
    apply H. reflexivity.
  - destruct (symmetrical_remaps_or_passes (default_args "in.raw") []
                (initial_world ∅ (fun _ => true)) 32768 (map PyInt [-32769; 5]))
      as (_ & H & _).
    apply H. reflexivity.
Defined.

(** C6 (the claim as stated fails).  With 8-bit output and
    [--make-symmetrical], the float samples -1.015625 and 1.015625 rescale
    to -129 and 130: the sequence contains -129, and the pass maps 130 to
    about 129.99, above 128.  Likewise the 16-bit integer samples -129
    and 1000 passed to an 8-bit table give -128.0 and about 996.6. *)
Lemma symmetrical_leaves_range_counterexample :
  compute_out_values (mkArgs "float" 32 8 "in.raw" None None 16384 false)
    (decode_items tc_f [x00; x00; x82; xbf; x00; x00; x82; x3f])
    (initial_world ∅ (fun _ => true))
  = (Ok (map PyInt [-129; 130]), initial_world ∅ (fun _ => true))
  /\ py_in (PyInt (-129)) (map PyInt [-129; 130]) = true
  /\ compute_out_values (mkArgs "float" 32 8 "in.raw" None None 16384 true)
       (decode_items tc_f [x00; x00; x82; xbf; x00; x00; x82; x3f])
       (initial_world ∅ (fun _ => true))
     = (Ok [PyFloat (S754_finite true 4503599627370496 (-45));
            PyFloat (S754_finite false 4573694563205056 (-45))],
        initial_world ∅ (fun _ => true))
  /\ within (-128) 128 (PyFloat (S754_finite false 4573694563205056 (-45))) = false
  /\ PyFloat.trunc_finite false 4573694563205056 (-45) = 129
  /\ compute_out_values (mkArgs "int" 16 8 "in.raw" None None 16384 true)
       (decode_items tc_h [x7f; xff; xe8; x03]) (initial_world ∅ (fun _ => true))
     = (Ok [PyFloat (S754_finite true 4503599627370496 (-45));
            PyFloat (S754_finite false 8766247912809692 (-43))],
        initial_world ∅ (fun _ => true))
  /\ within (-128) 128 (PyFloat (S754_finite false 8766247912809692 (-43))) = false.
Proof. repeat split. Qed.

(** ** Rounding of the double arithmetic *)

Lemma shr_1_state (m i : Z) (r : shr_record) :
  0 <= m -> 0 <= i -> shr_state m i r -> shr_state m (i + 1) (shr_1 r).
Proof.
  intros Hm Hi [Hq Hflags].
  assert (Hpow : 2 ^ (i + 1) = 2 ^ i * 2) by (rewrite Z.pow_add_r by lia; reflexivity).
  assert (Hp : 0 < 2 ^ i) by (apply Z.pow_pos_nonneg; lia).
  assert (Hdiv : m / 2 ^ (i + 1) = m / 2 ^ i / 2)
    by (rewrite Hpow, Z.div_div by lia; reflexivity).
  assert (Hmod : m mod 2 ^ (i + 1) = 0 -> m mod 2 ^ i = 0 /\ (m / 2 ^ i) mod 2 = 0).
  { rewrite Hpow, Z.rem_mul_r by lia.
    pose proof (Z.mod_pos_bound m (2 ^ i) Hp).
    pose proof (Z.mod_pos_bound (m / 2 ^ i) 2 ltac:(lia)). nia. }
  destruct r as [q b s]. cbn [shr_m shr_r shr_s] in *.
  assert (Hq0 : 0 <= q) by (rewrite Hq; apply Z.div_pos; lia).
  unfold shr_state. rewrite Hdiv, <- Hq.
  destruct q as [|[p|p|]|p]; cbn [shr_1 shr_m shr_r shr_s]; try lia.
  - split; [reflexivity|]. intros H0. apply Hmod in H0 as [H0 _].
    destruct (Hflags H0) as [-> ->]. split; reflexivity.
  - split; [rewrite Pos2Z.inj_xI; apply Z.div_unique with 1; lia|].
    intros H0. apply Hmod in H0 as [_ H0]. rewrite <- Hq, Pos2Z.inj_xI in H0.
    exfalso. rewrite Z.mul_comm, Z.add_comm, Z.mod_add in H0 by lia. discriminate.
  - split; [rewrite Pos2Z.inj_xO; apply Z.div_unique with 0; lia|].
    intros H0. apply Hmod in H0 as [H0 _].
    destruct (Hflags H0) as [-> ->]. split; reflexivity.
  - split; [reflexivity|].
    intros H0. apply Hmod in H0 as [_ H0]. rewrite <- Hq in H0. discriminate.
Qed.

Lemma iter_shr_1_state (m : Z) (p : positive) : forall (i : Z) (r : shr_record),
  0 <= m -> 0 <= i -> shr_state m i r ->
  shr_state m (i + Zpos p) (SpecFloat.iter_pos shr_1 p r).
Proof.
  induction p as [p IH|p IH|]; intros i r Hm Hi H; cbn [SpecFloat.iter_pos].
  - replace (i + Zpos p~1) with (i + 1 + Zpos p + Zpos p) by lia.
    apply IH; [lia | lia |]. apply IH; [lia | lia |]. now apply shr_1_state.
  - replace (i + Zpos p~0) with (i + Zpos p + Zpos p) by lia.
    apply IH; [lia | lia |]. now apply IH.
  - now apply shr_1_state.
Qed.

(** Rounding to nearest after a shift stays between the floor and the
    ceiling of the exact quotient. *)
Lemma round_after_shift (m : Z) (g : Z) (r : shr_record) (c : Z) :
  0 <= m -> 0 <= g -> shr_state m g r -> m <= c * 2 ^ g ->
  m / 2 ^ g <= round_nearest_even (shr_m r) (loc_of_shr_record r) <= c.
Proof.
  intros Hm Hg [Hq Hflags] Hc.
  assert (Hp : 0 < 2 ^ g) by (apply Z.pow_pos_nonneg; lia).
  assert (Hfloor : m / 2 ^ g <= c).
  { apply Z.div_le_upper_bound; lia. }
  assert (Hceil : m mod 2 ^ g <> 0 -> m / 2 ^ g + 1 <= c).
  { intros Hne. pose proof (Z.div_mod m (2 ^ g) ltac:(lia)).
    pose proof (Z.mod_pos_bound m (2 ^ g) Hp).
    destruct (Z.le_gt_cases (m / 2 ^ g + 1) c); [assumption|].
    assert (c = m / 2 ^ g) by lia. subst c. nia. }
  destruct (Z.eq_dec (m mod 2 ^ g) 0) as [H0|Hne].
  - destruct (Hflags H0) as [Hr Hs]. destruct r as [q b s]; cbn in *. subst.
    cbn. lia.
  - specialize (Hceil Hne). destruct r as [q [] []]; cbn in *; subst;
      try destruct (Z.even _); lia.
Qed.

Lemma digits2_pos_ge (p : positive) (n : Z) : 2 ^ (n - 1) <= Zpos p -> n <= Zpos (digits2_pos p).
Proof.
  intros H. pose proof (digits2_pos_bound p) as Hb.
  destruct (Z.le_gt_cases n (Zpos (digits2_pos p))); [assumption|].
  assert (2 ^ Zpos (digits2_pos p) <= 2 ^ (n - 1)) by (apply Z.pow_le_mono_r; lia). lia.
Qed.

Lemma digits2_pos_low (p : positive) : 2 ^ (Zpos (digits2_pos p) - 1) <= Zpos p.
Proof.
  induction p; cbn [digits2_pos]; rewrite ?Pos2Z.inj_succ.
  - replace (Z.succ (Zpos (digits2_pos p)) - 1) with (Z.succ (Zpos (digits2_pos p) - 1)) by lia.
    rewrite Z.pow_succ_r by lia. lia.
  - replace (Z.succ (Zpos (digits2_pos p)) - 1) with (Z.succ (Zpos (digits2_pos p) - 1)) by lia.
    rewrite Z.pow_succ_r by lia. lia.
  - cbn. lia.
Qed.

(** Rounding a positive mantissa to a double: the result is finite, sits
    on the grid of its target exponent [e0] or one above, and does not
    exceed a bound [c] given on that grid. *)
Lemma binary_round_aux_bound (s : bool) (m : positive) (e c : Z) :
  -1074 <= e ->
  Z.max e (fexp 53 1024 (Zpos (digits2_pos m) + e)) <= -2 ->
  Zpos m <= c * 2 ^ (Z.max e (fexp 53 1024 (Zpos (digits2_pos m) + e)) - e) ->
  exists q' e'',
    binary_round_aux 53 1024 s (Zpos m) e loc_Exact = S754_finite s q' e''
    /\ e'' < 0
    /\ Z.max e (fexp 53 1024 (Zpos (digits2_pos m) + e)) <= e''
    /\ Zpos q' * 2 ^ (e'' - Z.max e (fexp 53 1024 (Zpos (digits2_pos m) + e))) <= c.
Proof.
  intros He. set (d := Zpos (digits2_pos m)).
  unfold fexp, emin. set (e0 := Z.max e (Z.max (d + e - 53) (3 - 1024 - 53))).
  intros He0 Hc.
  unfold binary_round_aux, shr_fexp. cbn [Zdigits2 shr_record_of_loc]. fold d.
  unfold fexp, emin.
  destruct (Z.max (d + e - 53) (3 - 1024 - 53) - e) as [|g|g] eqn:Hg.
  - (* no shift *)
    assert (e0 = e) by lia.
    cbn [shr shr_m loc_of_shr_record round_nearest_even Zdigits2]. fold d.
    rewrite Hg. cbn [shr shr_m].
    destruct (Z.leb_spec e (1024 - 53)); [|lia].
    exists m, e. split; [reflexivity|]. split; [lia|]. split; [lia|].
    replace (e - e0) with 0 by lia. replace (e0 - e) with 0 in Hc by lia.
    rewrite Z.pow_0_r in *. lia.
  - (* a shift by [g] bits: the mantissa has [53 + g] bits *)
    assert (Hd : d = 53 + Zpos g) by lia.
    assert (Hee : e0 = e + Zpos g) by lia.
    cbn [shr].
    set (r := SpecFloat.iter_pos shr_1 g
                {| shr_m := Zpos m; shr_r := false; shr_s := false |}).
    assert (Hr : shr_state (Zpos m) (Zpos g) r).
    { change (Zpos g) with (0 + Zpos g). apply iter_shr_1_state; [lia | lia |].
      split; cbn [shr_m shr_r shr_s]; [now rewrite Z.div_1_r | tauto]. }
    assert (Hp : 0 < 2 ^ Zpos g) by (apply Z.pow_pos_nonneg; lia).
    pose proof (digits2_pos_bound m) as Hhi. fold d in Hhi.
    pose proof (digits2_pos_low m) as Hlo. fold d in Hlo.
    rewrite Hd in Hhi, Hlo.
    replace (53 + Zpos g - 1) with (52 + Zpos g) in Hlo by lia.
    rewrite Z.pow_add_r in Hhi, Hlo by lia.
    assert (Hfl : 2 ^ 52 <= Zpos m / 2 ^ Zpos g < 2 ^ 53).
    { split; [apply Z.div_le_lower_bound; lia | apply Z.div_lt_upper_bound; lia]. }
    replace (e0 - e) with (Zpos g) in Hc by lia.
    pose proof (round_after_shift (Zpos m) (Zpos g) r c ltac:(lia) ltac:(lia) Hr Hc) as Hq.
    assert (Hq1 : round_nearest_even (shr_m r) (loc_of_shr_record r)
                  <= Zpos m / 2 ^ Zpos g + 1).
    { apply (round_after_shift (Zpos m) (Zpos g) r); [lia | lia | exact Hr |].
      pose proof (Z.div_mod (Zpos m) (2 ^ Zpos g) ltac:(lia)).
      pose proof (Z.mod_pos_bound (Zpos m) (2 ^ Zpos g) Hp). nia. }
    remember (round_nearest_even (shr_m r) (loc_of_shr_record r)) as rq eqn:Hrq.
    destruct rq as [|q|q]; [lia | | lia].
    cbn [Zdigits2 shr_record_of_loc].
    destruct (Z.eq_dec (Zpos q) (2 ^ 53)) as [Hcarry|Hnc].
    + (* the rounding carried into a 54th bit *)
      assert (q = Pos.pow 2 53) by (apply Pos2Z.inj; rewrite Hcarry; reflexivity).
      subst q. 
      replace (Z.max (Zpos (digits2_pos (2 ^ 53)) + (e + Zpos g) - 53) (3 - 1024 - 53) - (e + Zpos g))
        with 1 by (change (Zpos (digits2_pos (2 ^ 53))) with 54; lia).
      cbn [shr SpecFloat.iter_pos shr_1 shr_m Pos.pow Pos.iter Pos.mul].
      destruct (Z.leb_spec (e + Zpos g + 1) (1024 - 53)); [|lia].
      eexists. eexists. split; [reflexivity|].
      split; [lia|]. split; [lia|].
      replace (e + Zpos g + 1 - e0) with 1 by lia.
      change (Zpos (2 ^ 52) * 2 ^ 1) with (2 ^ 53). lia.
    + assert (Hdq : Zpos (digits2_pos q) = 53).
      { apply Z.le_antisymm; [apply digits2_pos_le; lia | apply digits2_pos_ge; lia]. }
      rewrite Hdq.
      replace (Z.max (53 + (e + Zpos g) - 53) (3 - 1024 - 53) - (e + Zpos g)) with 0 by lia.
      cbn [shr shr_m].
      destruct (Z.leb_spec (e + Zpos g) (1024 - 53)); [|lia].
      exists q, (e + Zpos g). split; [reflexivity|].
      split; [lia|]. split; [lia|].
      replace (e + Zpos g - e0) with 0 by lia. rewrite Z.pow_0_r. lia.
  - (* the mantissa is short: no shift *)
    assert (e0 = e) by lia.
    cbn [shr shr_m loc_of_shr_record round_nearest_even Zdigits2]. fold d.
    rewrite Hg. cbn [shr shr_m].
    destruct (Z.leb_spec e (1024 - 53)); [|lia].
    exists m, e. split; [reflexivity|]. split; [lia|]. split; [lia|].
    replace (e - e0) with 0 by lia. replace (e0 - e) with 0 in Hc by lia.
    rewrite Z.pow_0_r in *. lia.
Qed.

Lemma iter_xO_value (m k : positive) : Zpos (Pos.iter xO m k) = Zpos m * 2 ^ Zpos k.
Proof.
  revert m. induction k using Pos.peano_ind; intros m.
  - cbn. lia.
  - rewrite Pos.iter_succ, Pos2Z.inj_succ, Z.pow_succ_r by lia.
    rewrite Pos2Z.inj_xO, IHk. lia.
Qed.

(** The integer part of a rounded sum: when the exact value
    [m * 2^e] is at most [N + 1/2], so is the double it rounds to, and
    its integer part is at most [N]. *)
Lemma binary_round_trunc_le (s : bool) (m : positive) (e N : Z) :
  -1074 <= e <= -2 -> 0 <= N ->
  fexp 53 1024 (Zpos (digits2_pos m) + e) <= -2 ->
  Zpos m <= (2 * N + 1) * 2 ^ (-1 - e) ->
  exists q' e'',
    binary_round 53 1024 s m e = S754_finite s q' e''
    /\ e'' < 0
    /\ Z.shiftr (Zpos q') (- e'') <= N.
Proof.
  intros He HN Hf Hm. unfold binary_round.
  set (f := fexp 53 1024 (Zpos (digits2_pos m) + e)) in *.
  assert (Hfmin : -1074 <= f) by (unfold f, fexp, emin; lia).
  assert (Hfinish : forall q' e'' e0, e0 <= -2 -> e'' < 0 -> e0 <= e'' ->
            Zpos q' * 2 ^ (e'' - e0) <= (2 * N + 1) * 2 ^ (-1 - e0) ->
            Z.shiftr (Zpos q') (- e'') <= N).
  { intros q' e'' e0 H0 H1 H2 H3. rewrite Z.shiftr_div_pow2 by lia.
    apply Z.lt_succ_r. apply Z.div_lt_upper_bound; [apply Z.pow_pos_nonneg; lia|].
    assert (Hp1 : 0 < 2 ^ (e'' - e0)) by (apply Z.pow_pos_nonneg; lia).
    assert (Hp2 : 0 < 2 ^ (-1 - e0)) by (apply Z.pow_pos_nonneg; lia).
    assert (Hs : 2 ^ (- e'') * 2 ^ (e'' - e0) = 2 * 2 ^ (-1 - e0)).
    { rewrite <- Z.pow_add_r by lia. replace (- e'' + (e'' - e0)) with (Z.succ (-1 - e0)) by lia.
      apply Z.pow_succ_r. lia. }
    apply (Z.mul_lt_mono_pos_r (2 ^ (e'' - e0))); [exact Hp1|]. nia. }
  unfold shl_align. destruct (f - e) as [|k|k] eqn:Hk.
  - (* the exponent is already the target *)
    destruct (binary_round_aux_bound s m e ((2 * N + 1) * 2 ^ (-1 - e)))
      as (q' & e'' & Hr & Hneg & Hge & Hle); fold f.
    + lia.
    + lia.
    + replace (Z.max e f - e) with 0 by lia. rewrite Z.pow_0_r. lia.
    + fold f in Hge, Hle.
      exists q', e''. split; [exact Hr|]. split; [exact Hneg|].
      apply (Hfinish q' e'' e); [lia | lia | lia |].
      replace (Z.max e f) with e in Hle by lia. exact Hle.
  - (* the mantissa is too long: rounding shifts it *)
    destruct (binary_round_aux_bound s m e ((2 * N + 1) * 2 ^ (-1 - f)))
      as (q' & e'' & Hr & Hneg & Hge & Hle); fold f.
    + lia.
    + lia.
    + replace (Z.max e f - e) with (Zpos k) by lia.
      replace (-1 - e) with (-1 - f + Zpos k) in Hm by lia.
      rewrite Z.pow_add_r in Hm by lia. lia.
    + fold f in Hge, Hle.
      exists q', e''. split; [exact Hr|]. split; [exact Hneg|].
      apply (Hfinish q' e'' f); [lia | lia | lia |].
      replace (Z.max e f) with f in Hle by lia. exact Hle.
  - (* the mantissa is short: it is aligned on the target exponent *)
    assert (Hdig : Zpos (digits2_pos (Pos.iter xO m k)) + f = Zpos (digits2_pos m) + e).
    { rewrite digits2_pos_iter_xO. lia. }
    destruct (binary_round_aux_bound s (Pos.iter xO m k) f ((2 * N + 1) * 2 ^ (-1 - f)))
      as (q' & e'' & Hr & Hneg & Hge & Hle); rewrite ?Hdig; fold f.
    + lia.
    + lia.
    + replace (Z.max f f - f) with 0 by lia. rewrite Z.pow_0_r, iter_xO_value.
      replace (-1 - f) with (-1 - e + Zpos k) by lia.
      rewrite Z.pow_add_r by lia.
      assert (0 < 2 ^ Zpos k) by (apply Z.pow_pos_nonneg; lia). nia.
    + exists q', e''. split; [exact Hr|]. split; [exact Hneg|].
      rewrite Hdig in Hge, Hle. fold f in Hge, Hle.
      apply (Hfinish q' e'' f); [lia | lia | lia |].
      replace (Z.max f f) with f in Hle by lia. exact Hle.
Qed.

Lemma shr_exact (m g : positive) :
  SpecFloat.iter_pos shr_1 g
    {| shr_m := Zpos (Pos.iter xO m g); shr_r := false; shr_s := false |}
  = {| shr_m := Zpos m; shr_r := false; shr_s := false |}.
Proof.
  pose proof (iter_shr_1_state (Zpos (Pos.iter xO m g)) g 0
                {| shr_m := Zpos (Pos.iter xO m g); shr_r := false; shr_s := false |}
                ltac:(lia) ltac:(lia)) as H.
  destruct H as [Hq Hfl].
  { split; cbn [shr_m shr_r shr_s]; [now rewrite Z.div_1_r | tauto]. }
  destruct (SpecFloat.iter_pos shr_1 g _) as [q b s].
  cbn [shr_m shr_r shr_s Z.add] in Hq, Hfl.
  rewrite iter_xO_value in Hq, Hfl.
  assert (Hp : 0 < 2 ^ Zpos g) by (apply Z.pow_pos_nonneg; lia).
  rewrite Z.div_mul in Hq by lia. rewrite Z.mod_mul in Hfl by lia.
  destruct (Hfl eq_refl) as [Hr Hs]. now subst.
Qed.

(** Multiplying a normal double by a power of two raises its exponent. *)
Lemma mul_pow2 (s : bool) (m : positive) (e k : Z) :
  Zpos (digits2_pos m) = 53 -> -1074 <= e -> 0 <= k -> e + k <= 971 ->
  PyFloat.mul (S754_finite s m e) (S754_finite false 4503599627370496 (k - 52))
  = S754_finite s m (e + k).
Proof.
  intros Hd He Hk Hmax.
  unfold PyFloat.mul, SFmul, PyFloat.prec, PyFloat.emax.
  replace (xorb s false) with s by (now destruct s).
  assert (Hm : (m * 4503599627370496)%positive = Pos.iter xO m 52).
  { apply Pos2Z.inj. rewrite iter_xO_value, Pos2Z.inj_mul. reflexivity. }
  rewrite Hm.
  unfold binary_round_aux, shr_fexp. cbn [Zdigits2 shr_record_of_loc].
  rewrite digits2_pos_iter_xO, Pos2Z.inj_add, Hd.
  unfold fexp, emin.
  replace (Z.max (53 + 52 + (e + (k - 52)) - 53) (3 - 1024 - 53) - (e + (k - 52)))
    with 52 by lia.
  cbn [shr]. rewrite shr_exact.
  cbn [shr_m loc_of_shr_record round_nearest_even Zdigits2]. rewrite Hd.
  replace (Z.max (53 + (e + (k - 52) + 52) - 53) (3 - 1024 - 53) - (e + (k - 52) + 52))
    with 0 by lia.
  cbn [shr shr_m].
  destruct (Z.leb_spec (e + (k - 52) + 52) (1024 - 53)); [|lia].
  f_equal. lia.
Qed.

Lemma shl_align_value (m : positive) (e e' : Z) :
  e' <= e -> Zpos (fst (shl_align m e e')) = Zpos m * 2 ^ (e - e').
Proof.
  intros H. unfold shl_align. destruct (e' - e) as [|p|p] eqn:E; [| lia |].
  - replace (e - e') with 0 by lia. cbn [fst]. rewrite Z.pow_0_r. lia.
  - cbn [fst]. rewrite iter_xO_value. f_equal. f_equal. lia.
Qed.

(** Adding 0.5 to a normal double of magnitude at most [2^k] and taking
    the integer part. *)
Lemma add_half_trunc (s : bool) (m : positive) (e k : Z) :
  Zpos (digits2_pos m) = 53 -> -1074 <= e -> 0 <= k <= 31 ->
  e <= k - 53 \/ (e = k - 52 /\ m = 4503599627370496%positive) ->
  exists z,
    py_trunc (PyFloat (PyFloat.add (S754_finite s m e) PyFloat.half)) = Ok z
    /\ - 2 ^ k < z <= 2 ^ k.
Proof.
  intros Hd He Hk Hy.
  assert (Hpk : 0 < 2 ^ k) by (apply Z.pow_pos_nonneg; lia).
  unfold PyFloat.add, PyFloat.half, SFadd, PyFloat.prec, PyFloat.emax.
  set (ez := Z.min e (-53)).
  rewrite !shl_align_value by lia.
  assert (Hb : Zpos 4503599627370496 * 2 ^ (-53 - ez) = 2 ^ (-1 - ez)).
  { change (Zpos 4503599627370496) with (2 ^ 52). rewrite <- Z.pow_add_r by lia.
    f_equal. lia. }
  cbn [cond_Zopp]. rewrite Hb.
  set (a := Zpos m * 2 ^ (e - ez)).
  set (h := 2 ^ (-1 - ez)).
  assert (Hh : 0 < h) by (apply Z.pow_pos_nonneg; lia).
  assert (Ha : 0 < a <= 2 ^ (k + 1) * h).
  { split; [apply Z.mul_pos_pos; [lia | apply Z.pow_pos_nonneg; lia]|].
    unfold a, h. rewrite <- Z.pow_add_r by lia.
    replace (k + 1 + (-1 - ez)) with (k - ez) by lia.
    destruct Hy as [Hy | [Hy ->]].
    - pose proof (digits2_pos_bound m) as Hlt. rewrite Hd in Hlt.
      assert (2 ^ 53 * 2 ^ (e - ez) <= 2 ^ (k - ez)).
      { rewrite <- Z.pow_add_r by lia. apply Z.pow_le_mono_r; lia. }
      assert (0 < 2 ^ (e - ez)) by (apply Z.pow_pos_nonneg; lia). nia.
    - change (Zpos 4503599627370496) with (2 ^ 52). rewrite <- Z.pow_add_r by lia.
      apply Z.pow_le_mono_r; lia. }
  assert (H2k : 2 ^ (k + 1) = 2 * 2 ^ k) by (rewrite Z.pow_add_r by lia; lia).
  assert (Hfexp : forall p : positive, Zpos p <= (2 ^ (k + 1) + 1) * h ->
            fexp 53 1024 (Zpos (digits2_pos p) + ez) <= -2).
  { intros p Hp. unfold fexp, emin.
    assert (Zpos (digits2_pos p) <= k + 1 - ez).
    { apply digits2_pos_le; [lia|].
      replace (k + 1 - ez) with (k + 2 + (-1 - ez)) by lia.
      rewrite Z.pow_add_r by lia. fold h.
      assert (2 ^ (k + 2) = 4 * 2 ^ k) by (rewrite Z.pow_add_r by lia; lia). nia. }
    lia. }
  unfold binary_normalize.
  destruct (cond_Zopp s a + h) as [|n|n] eqn:Hn.
  - exists 0. split; [reflexivity | lia].
  - destruct (binary_round_trunc_le false n ez (2 ^ k)) as (q' & e'' & Hr & Hneg & Hle).
    + lia.
    + lia.
    + apply Hfexp. destruct s; cbn [cond_Zopp] in Hn; nia.
    + fold h. destruct s; cbn [cond_Zopp] in Hn; nia.
    + rewrite Hr. cbn [py_trunc]. unfold PyFloat.trunc_finite. cbn [cond_Zopp].
      destruct (Z.leb_spec 0 e''); [lia|].
      eexists. split; [reflexivity|].
      pose proof (Z.shiftr_nonneg (Zpos q') (- e'')). lia.
  - destruct (binary_round_trunc_le true n ez (2 ^ k - 1)) as (q' & e'' & Hr & Hneg & Hle).
    + lia.
    + lia.
    + apply Hfexp. destruct s; cbn [cond_Zopp] in Hn; nia.
    + fold h. destruct s; cbn [cond_Zopp] in Hn; nia.
    + rewrite Hr. cbn [py_trunc]. unfold PyFloat.trunc_finite. cbn [cond_Zopp].
      destruct (Z.leb_spec 0 e''); [lia|].
      eexists. split; [reflexivity|].
      pose proof (Z.shiftr_nonneg (Zpos q') (- e'')). lia.
Qed.

Lemma normalized_digits (p : positive) :
  Zpos (digits2_pos p) <= 53 ->
  Zpos (digits2_pos (Z.to_pos (Zpos p * 2 ^ (53 - Zpos (digits2_pos p))))) = 53.
Proof.
  intros Hd. destruct (Z.eq_dec (Zpos (digits2_pos p)) 53) as [E|E].
  - rewrite E. change (2 ^ (53 - 53)) with 1. rewrite Z.mul_1_r. exact E.
  - assert (Hsh : exists q, 53 - Zpos (digits2_pos p) = Zpos q)
      by (exists (Z.to_pos (53 - Zpos (digits2_pos p))); lia).
    destruct Hsh as [q Hq]. rewrite Hq, <- iter_xO_value. cbn [Z.to_pos].
    rewrite digits2_pos_iter_xO. lia.
Qed.

(** A mantissa of at most 53 bits is normalised without rounding. *)
Lemma binary_round_short (s : bool) (p : positive) (e : Z) :
  Zpos (digits2_pos p) <= 53 ->
  -1074 <= e + Zpos (digits2_pos p) - 53 <= 971 ->
  binary_round 53 1024 s p e =
  S754_finite s (Z.to_pos (Zpos p * 2 ^ (53 - Zpos (digits2_pos p))))
              (e + Zpos (digits2_pos p) - 53).
Proof.
  intros Hd He. unfold binary_round, fexp, emin.
  replace (Z.max (Zpos (digits2_pos p) + e - 53) (3 - 1024 - 53))
    with (e + Zpos (digits2_pos p) - 53) by lia.
  unfold shl_align.
  destruct (e + Zpos (digits2_pos p) - 53 - e) as [|q|q] eqn:E; try lia.
  - replace (53 - Zpos (digits2_pos p)) with 0 by lia.
    rewrite Z.pow_0_r, Z.mul_1_r. cbn [Z.to_pos].
    replace (e + Zpos (digits2_pos p) - 53) with e by lia.
    apply binary_round_aux_canonical; lia.
  - replace (53 - Zpos (digits2_pos p)) with (Zpos q) by lia.
    rewrite <- iter_xO_value. cbn [Z.to_pos].
    apply binary_round_aux_canonical; [rewrite digits2_pos_iter_xO; lia | lia].
Qed.

(** A binary32 pattern decodes to a zero, an infinity, a NaN or a normal
    double. *)
Lemma decode_f32_shape (u : Z) :
  match decode_f32 u with
  | S754_finite s m e => Zpos (digits2_pos m) = 53 /\ -1074 <= e <= 971
  | _ => True
  end.
Proof.
  unfold decode_f32.
  set (sign := Z.testbit u 31). set (ex := Z.land (Z.shiftr u 23) 255).
  set (frac := Z.land u (Z.ones 23)).
  assert (Hfrac : 0 <= frac < 2 ^ 23).
  { unfold frac. rewrite Z.land_ones by lia. apply Z.mod_pos_bound. lia. }
  assert (Hex : 0 <= ex < 2 ^ 8).
  { unfold ex. change 255 with (Z.ones 8). rewrite Z.land_ones by lia.
    apply Z.mod_pos_bound. lia. }
  assert (Hshape : forall (p : positive) (e : Z), Zpos p < 2 ^ 24 -> -149 <= e <= 104 ->
            match binary_normalize PyFloat.prec PyFloat.emax (cond_Zopp sign (Zpos p)) e false with
            | S754_finite s m e' => Zpos (digits2_pos m) = 53 /\ -1074 <= e' <= 971
            | _ => True
            end).
  { intros p e Hp He.
    assert (Hd : Zpos (digits2_pos p) <= 24) by (apply digits2_pos_le; lia).
    assert (Hr : binary_normalize PyFloat.prec PyFloat.emax (cond_Zopp sign (Zpos p)) e false
                 = binary_round 53 1024 sign p e) by (destruct sign; reflexivity).
    rewrite Hr, binary_round_short by lia.
    split; [apply normalized_digits; lia | lia]. }
  destruct (Z.eqb_spec ex 255); [destruct (frac =? 0); exact I|].
  destruct (Z.eqb_spec ex 0).
  - destruct (Z.eqb_spec frac 0); [exact I|].
    destruct frac as [|p|p]; [lia | | lia]. apply Hshape; lia.
  - assert (Hpos : exists p, frac + 2 ^ 23 = Zpos p) by (exists (Z.to_pos (frac + 2 ^ 23)); lia).
    destruct Hpos as [p Hp]. rewrite Hp. apply Hshape; lia.
Qed.

Lemma within_unit_finite (s : bool) (m : positive) (e : Z) :
  Zpos (digits2_pos m) = 53 ->
  within (-1) 1 (PyFloat (S754_finite s m e)) = true ->
  e <= -53 \/ (e = -52 /\ m = 4503599627370496%positive).
Proof.
  intros Hd. pose proof (digits2_pos_low m) as Hlo. rewrite Hd in Hlo.
  change (2 ^ (53 - 1)) with (Zpos 4503599627370496) in Hlo.
  unfold within, PyFloat.leb, SFleb.
  change (PyFloat.of_Z (-1)) with (S754_finite true 4503599627370496 (-52)).
  change (PyFloat.of_Z 1) with (S754_finite false 4503599627370496 (-52)).
  destruct s; cbn [SFcompare andb].
  - destruct (Z.compare_spec (-52) e) as [E|E|E]; [| discriminate | intros _; lia].
    rewrite Pos.compare_cont_spec. cbn [Pos.switch_Eq].
    destruct (Pos.compare_spec 4503599627370496 m) as [C|C|C]; cbn [CompOpp].
    + intros _. right. split; [lia | congruence].
    + discriminate.
    + intros _. exfalso. apply Pos2Z.pos_lt_pos in C. lia.
  - destruct (Z.compare_spec e (-52)) as [E|E|E]; [| intros _; lia | discriminate].
    rewrite Pos.compare_cont_spec. cbn [Pos.switch_Eq].
    destruct (Pos.compare_spec m 4503599627370496) as [C|C|C].
    + intros _. right. split; [lia | congruence].
    + intros _. exfalso. apply Pos2Z.pos_lt_pos in C. lia.
    + discriminate.
Qed.

(** A float sample between -1.0 and 1.0 rescales to an int between
    [-max_output_value + 1] and [max_output_value]. *)
Lemma rescale_unit_bounded (k : Z) (M : Z) (f : spec_float) :
  0 <= k <= 31 ->
  PyFloat.of_Z M = S754_finite false 4503599627370496 (k - 52) ->
  match f with
  | S754_finite _ m e => Zpos (digits2_pos m) = 53 /\ -1074 <= e <= 971
  | _ => True
  end ->
  within (-1) 1 (PyFloat f) = true ->
  exists z, rescale M (PyFloat f) = Ok (PyInt z) /\ - 2 ^ k < z <= 2 ^ k.
Proof.
  intros Hk HM Hshape Hin.
  assert (Hpk : 0 < 2 ^ k) by (apply Z.pow_pos_nonneg; lia).
  unfold rescale, py_mul, py_to_float, py_float_of_int. rewrite HM. cbn [obind].
  destruct f as [s|s| |s m e].
  - exists 0. split; [destruct s; reflexivity | lia].
  - destruct s; discriminate.
  - discriminate.
  - destruct Hshape as [Hd He].
    destruct (within_unit_finite s m e Hd Hin) as [Hy|[Hy Hm]].
    + rewrite mul_pow2 by lia. cbn [py_add py_to_float obind].
      destruct (add_half_trunc s m (e + k) k Hd ltac:(lia) Hk ltac:(lia)) as (z & Hz & Hb).
      exists z. rewrite Hz. split; [reflexivity | exact Hb].
    + rewrite mul_pow2 by lia. cbn [py_add py_to_float obind].
      destruct (add_half_trunc s m (e + k) k Hd ltac:(lia) Hk ltac:(right; split; [lia | exact Hm]))
        as (z & Hz & Hb).
      exists z. rewrite Hz. split; [reflexivity | exact Hb].
Qed.

(** ** The range of the result *)

Lemma le_unsigned_bound (bs : list byte) :
  0 <= le_unsigned bs < 256 ^ Z.of_nat (length bs).
Proof.
  induction bs as [|b rest IH]; [cbn; lia|].
  cbn [le_unsigned length]. rewrite Nat2Z.inj_succ, Z.pow_succ_r by lia.
  pose proof (Byte.to_N_bounded b). lia.
Qed.

Lemma chunks_item_length (n k : nat) (l : list byte) :
  Forall (fun c => (length c <= k)%nat) (chunks n k l).
Proof.
  revert l. induction n as [|n IH]; intros l; cbn [chunks]; constructor.
  - rewrite length_firstn. lia.
  - apply IH.
Qed.

Lemma to_signed_range (bits u : Z) :
  0 < bits -> 0 <= u < 2 ^ bits ->
  - 2 ^ (bits - 1) <= to_signed bits u <= 2 ^ (bits - 1) - 1.
Proof.
  intros Hb Hu. unfold to_signed.
  assert (H2 : 2 ^ bits = 2 * 2 ^ (bits - 1)).
  { replace bits with (Z.succ (bits - 1)) at 1 by lia. apply Z.pow_succ_r. lia. }
  destruct (Z.ltb_spec u (2 ^ (bits - 1))); lia.
Qed.

Lemma pow256_le (n k : nat) : (n <= k)%nat -> 256 ^ Z.of_nat n <= 2 ^ (8 * Z.of_nat k).
Proof.
  intros H. rewrite Z.pow_mul_r by lia. change (2 ^ 8) with 256.
  apply Z.pow_le_mono_r; lia.
Qed.

(** The items of the integer type codes are ints of their width. *)
Lemma decode_items_signed (tc : typecode) (content : list byte) :
  tc <> tc_f ->
  Forall (fits_signed (8 * Z.of_nat (itemsize tc))) (decode_items tc content).
Proof.
  intros Htc. unfold decode_items. apply List.Forall_map.
  eapply List.Forall_impl; [|apply chunks_item_length].
  intros c Hc. cbn beta.
  pose proof (le_unsigned_bound c) as Hu.
  pose proof (pow256_le _ _ Hc) as Hp.
  destruct tc; [| | |congruence]; cbn [decode_item fits_signed itemsize] in *;
    apply to_signed_range; lia.
Qed.

Lemma fits_signed_mono (b1 b2 : Z) (v : pyval) :
  0 < b1 <= b2 -> fits_signed b1 v -> fits_signed b2 v.
Proof.
  intros Hb. destruct v as [z|f]; cbn; [|tauto].
  assert (2 ^ (b1 - 1) <= 2 ^ (b2 - 1)) by (apply Z.pow_le_mono_r; lia). lia.
Qed.

Lemma py_in_absent (x : Z) (l : list pyval) :
  Forall (fun v => match v with PyInt z => z <> x | PyFloat _ => False end) l ->
  py_in (PyInt x) l = false.
Proof.
  induction 1 as [|v rest Hv _ IH]; [reflexivity|].
  cbn [py_in existsb]. fold (py_in (PyInt x) rest). rewrite IH.
  destruct v as [z|f]; [|contradiction]. cbn. destruct (Z.eqb_spec x z); [congruence | reflexivity].
Qed.

(** The integer path: the table is the decoded sequence, within the
    signed range of the output width. *)
Lemma integer_path_fits
    (args : Namespace) (content : list byte) (w : world) :
  is_float_encoding args = false ->
  input_bits args = 8 \/ input_bits args = 16 \/ input_bits args = 32 ->
  output_bits args = 8 \/ output_bits args = 16 \/ output_bits args = 32 ->
  input_bits args <= output_bits args ->
  exists out_values,
    compute_out_values args (decoded_sequence args content) w = (Ok out_values, w)
    /\ out_values = decoded_sequence args content
    /\ Forall (fits_signed (output_bits args)) out_values.
Proof.
  intros Henc Hib Hob Hle.
  assert (Hdec : Forall (fits_signed (input_bits args)) (decoded_sequence args content)).
  { unfold decoded_sequence, array_type_of. rewrite Henc.
    destruct Hib as [H | [H | H]]; rewrite H; cbn [Z.eqb Pos.eqb array_array String.eqb Ascii.eqb Bool.eqb].
    - apply (decode_items_signed tc_b). discriminate.
    - apply (decode_items_signed tc_h). discriminate.
    - apply (decode_items_signed tc_i). discriminate. }
  set (in_values := decoded_sequence args content) in *.
  assert (Hm : py_lshift 2 (output_bits args - 2) = Ok (2 ^ (output_bits args - 1))).
  { destruct Hob as [H | [H | H]]; rewrite H; reflexivity. }
  assert (Hout : Forall (fits_signed (output_bits args)) in_values).
  { eapply List.Forall_impl; [|exact Hdec]. intros v. apply fits_signed_mono. lia. }
  exists in_values. split; [|split; [reflexivity | exact Hout]].
  unfold compute_out_values, bind at 1, lift. rewrite Hm.
  unfold bind at 1. rewrite convert_loop_eq.
  unfold convert_value. rewrite Henc, omap_Ok.
  destruct (make_symmetrical args); [|reflexivity].
  unfold symmetrical. rewrite py_in_absent; [reflexivity|].
  eapply List.Forall_impl; [|exact Hout].
  intros [z|f]; cbn; [lia | tauto].
Qed.

Lemma decode_items_f32_shape (content : list byte) :
  Forall (fun v => exists f, v = PyFloat f /\
                   match f with
                   | S754_finite _ m e => Zpos (digits2_pos m) = 53 /\ -1074 <= e <= 971
                   | _ => True
                   end)
         (decode_items tc_f content).
Proof.
  unfold decode_items. apply List.Forall_map. apply List.Forall_forall.
  intros c _. eexists. split; [reflexivity | apply decode_f32_shape].
Qed.

(** The float path: samples between -1.0 and 1.0 give ints between
    [-max_output_value + 1] and [max_output_value]. *)
Lemma float_path_bounded (args : Namespace) (content : list byte) (w : world) :
  is_float_encoding args = true ->
  input_bits args = 32 ->
  output_bits args = 8 \/ output_bits args = 16 \/ output_bits args = 32 ->
  Forall (fun v => within (-1) 1 v = true) (decoded_sequence args content) ->
  exists out_values,
    compute_out_values args (decoded_sequence args content) w = (Ok out_values, w)
    /\ length out_values = length (decoded_sequence args content)
    /\ Forall (fun v => exists z, v = PyInt z
                        /\ - 2 ^ (output_bits args - 1) < z <= 2 ^ (output_bits args - 1))
              out_values.
Proof.
  intros Henc Hib Hob Hin.
  assert (Hdec : decoded_sequence args content = decode_items tc_f content).
  { unfold decoded_sequence, array_type_of. now rewrite Hib, Henc. }
  rewrite Hdec in *.
  set (k := output_bits args - 1).
  assert (Hk : 0 <= k <= 31) by (unfold k; lia).
  assert (Hm : py_lshift 2 (output_bits args - 2) = Ok (2 ^ k)).
  { unfold k. destruct Hob as [H | [H | H]]; rewrite H; reflexivity. }
  assert (HM : PyFloat.of_Z (2 ^ k) = S754_finite false 4503599627370496 (k - 52)).
  { unfold k. destruct Hob as [H | [H | H]]; rewrite H; reflexivity. }
  destruct (omap_Forall (rescale (2 ^ k))
              (fun v => (exists f, v = PyFloat f /\
                           match f with
                           | S754_finite _ m e => Zpos (digits2_pos m) = 53 /\ -1074 <= e <= 971
                           | _ => True
                           end) /\ within (-1) 1 v = true)
              (fun v => exists z, v = PyInt z /\ - 2 ^ k < z <= 2 ^ k)
              (decode_items tc_f content)) as (out & Hout & Hall).
  - intros v [(f & -> & Hshape) Hv].
    destruct (rescale_unit_bounded k (2 ^ k) f Hk HM Hshape Hv) as (z & Hz & Hb).
    exists (PyInt z). split; [exact Hz|]. now exists z.
  - apply List.Forall_and; [apply decode_items_f32_shape | exact Hin].
  - exists out. rewrite compute_out_values_eq. unfold out_values_of.
    rewrite Hm. cbn [obind].
    rewrite (omap_ext (convert_value args (2 ^ k)) (rescale (2 ^ k)))
      by (intros v; unfold convert_value; now rewrite Henc).
    rewrite Hout. cbn [obind].
    split; [|split; [now apply omap_length in Hout | exact Hall]].
    destruct (make_symmetrical args); [|reflexivity].
    unfold symmetrical. rewrite py_in_absent; [reflexivity|].
    eapply List.Forall_impl; [|exact Hall].
    intros v (z & -> & Hz). lia.
Qed.

(** C5 (as amended).  For input and output widths among 8, 16 and 32,
    whatever the input file and the flag [--make-symmetrical]: with the
    integer encoding and an input width that does not exceed the output
    width, the table is computed without an exception, it is the decoded
    sequence itself, and each of its values is an int of the signed range
    of the output width; with the float encoding on 32-bit samples that
    all lie between -1.0 and 1.0, the table is computed without an
    exception, it has one value per sample, and each value is an int
    above [-2^(output_bits-1)] and at most [2^(output_bits-1)], one more
    than the signed maximum. *)
Theorem conversion_result_range
    (args : Namespace) (content : list byte) (w : world) :
  input_bits args = 8 \/ input_bits args = 16 \/ input_bits args = 32 ->
  output_bits args = 8 \/ output_bits args = 16 \/ output_bits args = 32 ->
  (is_float_encoding args = false ->
   input_bits args <= output_bits args ->
   exists out_values,
     compute_out_values args (decoded_sequence args content) w = (Ok out_values, w)
     /\ out_values = decoded_sequence args content
     /\ Forall (fits_signed (output_bits args)) out_values)
  /\ (is_float_encoding args = true ->
      input_bits args = 32 ->
      Forall (fun v => within (-1) 1 v = true) (decoded_sequence args content) ->
      exists out_values,
        compute_out_values args (decoded_sequence args content) w = (Ok out_values, w)
        /\ length out_values = length (decoded_sequence args content)
        /\ Forall (fun v => exists z, v = PyInt z
                            /\ - 2 ^ (output_bits args - 1) < z
                               <= 2 ^ (output_bits args - 1))
                  out_values).
Proof.
  intros Hib Hob. split.
  - intros Henc Hle. now apply integer_path_fits.
  - intros Henc H32 Hin. now apply float_path_bounded.
Qed.

Lemma conversion_result_range_witness :
  (exists out_values,
     compute_out_values (mkArgs "int" 8 16 "in.raw" None None 16384 true)
       (map PyInt [10; -5; -128; 127]) (initial_world ∅ (fun _ => true))
     = (Ok out_values, initial_world ∅ (fun _ => true))
     /\ out_values = map PyInt [10; -5; -128; 127]
     /\ Forall (fits_signed 16) out_values)
  /\ (exists out_values,
        compute_out_values (mkArgs "float" 32 8 "in.raw" None None 16384 true)
          [PyFloat (PyFloat.of_Z 1); PyFloat (PyFloat.of_Z (-1)); PyFloat PyFloat.half]
          (initial_world ∅ (fun _ => true))
        = (Ok out_values, initial_world ∅ (fun _ => true))
        /\ length out_values = 3%nat
        /\ Forall (fun v => exists z, v = PyInt z /\ - 2 ^ (8 - 1) < z <= 2 ^ (8 - 1))
                  out_values).
Proof.
  split.
  - apply (conversion_result_range
             (mkArgs "int" 8 16 "in.raw" None None 16384 true)
             [x0a; xfb; x80; x7f] (initial_world ∅ (fun _ => true))).
    + left. reflexivity.
    + right. left. reflexivity.
    + reflexivity.
    + cbn. lia.
  - apply (conversion_result_range
             (mkArgs "float" 32 8 "in.raw" None None 16384 true)
             [x00; x00; x80; x3f; x00; x00; x80; xbf; x00; x00; x00; x3f]
             (initial_world ∅ (fun _ => true))).
    + right. right. reflexivity.
    + left. reflexivity.
    + reflexivity.
    + reflexivity.
    + repeat constructor.
Defined.

(** C5 (the claim as stated fails).  The float sample 1.0 with 8-bit
    output gives 128, above the signed 8-bit maximum 127; and a 16-bit
    integer sample 1000 passes unchanged into an 8-bit table. *)
Lemma result_exceeds_output_width_counterexample :
  decode_items tc_f [x00; x00; x80; x3f] = [PyFloat (PyFloat.of_Z 1)]
  /\ compute_out_values (mkArgs "float" 32 8 "in.raw" None None 16384 false)
       [PyFloat (PyFloat.of_Z 1)] (initial_world ∅ (fun _ => true))
     = (Ok [PyInt 128], initial_world ∅ (fun _ => true))
  /\ ~ fits_signed 8 (PyInt 128)
  /\ compute_out_values (mkArgs "int" 16 8 "in.raw" None None 16384 false)
       (decode_items tc_h [xe8; x03]) (initial_world ∅ (fun _ => true))
     = (Ok [PyInt 1000], initial_world ∅ (fun _ => true))
  /\ ~ fits_signed 8 (PyInt 1000).
Proof.
  split; [reflexivity|]. split; [reflexivity|]. split; [cbn; lia|].
  split; [reflexivity|]. cbn; lia.
Qed.

(** ** The generator is never consulted *)

Lemma reseed_same (w : world) : reseed (entropy w) (draws w) w = w.
Proof. now destruct w. Qed.

Lemma oblivious_ret {A : Type} (a : A) : oblivious (ret a).
Proof. intros w e d. reflexivity. Qed.

Lemma oblivious_raise {A : Type} (x : exn) : oblivious (@raise A x).
Proof. intros w e d. reflexivity. Qed.

Lemma oblivious_lift {A : Type} (x : outcome A) : oblivious (lift x).
Proof. intros w e d. reflexivity. Qed.

Lemma oblivious_bind {A B : Type} (c : M A) (k : A -> M B) :
  oblivious c -> (forall a, oblivious (k a)) -> oblivious (bind c k).
Proof.
  intros Hc Hk w e d. unfold bind. rewrite Hc.
  destruct (c w) as [[a|x] w']; cbn [fst snd]; [apply Hk | reflexivity].
Qed.

Lemma oblivious_print (text : string) : oblivious (print text).
Proof. intros w e d. reflexivity. Qed.

Lemma oblivious_file_write (path text : string) : oblivious (file_write path text).
Proof. intros w e d. reflexivity. Qed.

Lemma oblivious_stat_size (path : string) : oblivious (stat_size path).
Proof.
  intros w e d. unfold stat_size. cbn [fs log_event reseed].
  destruct (fs w !! path); reflexivity.
Qed.

Lemma oblivious_file_read (path : string) (n : Z) : oblivious (file_read path n).
Proof.
  intros w e d. unfold file_read. cbn [fs log_event reseed].
  destruct (fs w !! path); reflexivity.
Qed.

Lemma oblivious_array_fromfile tc arr fin n : oblivious (array_fromfile tc arr fin n).
Proof.
  unfold array_fromfile. destruct (n <? 0); [apply oblivious_raise|].
  apply oblivious_bind; [apply oblivious_file_read|].
  intros b. destruct (negb _); [apply oblivious_raise | apply oblivious_ret].
Qed.

Lemma oblivious_read_in_values args input_path :
  oblivious (read_in_values args input_path).
Proof.
  unfold read_in_values.
  repeat (first [ apply oblivious_stat_size | apply oblivious_lift
                | apply oblivious_array_fromfile | apply oblivious_ret
                | apply oblivious_bind; [|intros ?] ]).
Qed.

Lemma oblivious_compute_out_values args in_values :
  oblivious (compute_out_values args in_values).
Proof. intros w e d. now rewrite !compute_out_values_eq. Qed.

Lemma oblivious_with_open {A : Type} (input_path output_path : string) (body : M A) :
  oblivious body -> oblivious (with_open input_path output_path body).
Proof.
  intros Hb [f s l e0 d0 dx] e d. unfold with_open, open_rb, open_w, close, writable.
  cbv [set_fs log_event reseed fs stdout io_log entropy draws dir_exists].
  destruct (f !! input_path); [|reflexivity].
  destruct (match f !! output_path with Some _ => true | None => dx output_path end);
    [|reflexivity].
  pose proof (Hb (mkWorld (<[output_path := []]> f) s
                    ((l ++ [EvOpenRead input_path]) ++ [EvOpenWrite output_path]) e0 d0 dx)
                 e d) as H.
  cbv [reseed fs stdout io_log entropy draws dir_exists] in H. rewrite H. clear H.
  destruct (body _) as [r [f3 s3 l3 e3 d3 dx3]]. reflexivity.
Qed.

Ltac oblivious_step :=
  first [ apply oblivious_print | apply oblivious_file_write
        | apply oblivious_read_in_values | apply oblivious_compute_out_values
        | apply oblivious_ret | apply oblivious_lift
        | apply oblivious_bind; [|intros ?] ].

Section ScriptFacts.

Variable expanduser : string -> string.
Variable with_suffix : string -> string -> string.
Variable stem : string -> string.
Variable str_upper : string -> string.
Variable textwrap_fill : string -> Z -> string.
Variable float_repr : spec_float -> string.

Lemma oblivious_float2mozzi_body args input_path output_path :
  oblivious (float2mozzi_body expanduser with_suffix stem str_upper textwrap_fill float_repr
               args input_path output_path).
Proof.
  unfold float2mozzi_body. repeat oblivious_step.
Qed.

Lemma oblivious_float2mozzi args :
  oblivious (float2mozzi expanduser with_suffix stem str_upper textwrap_fill float_repr args).
Proof.
  unfold float2mozzi. apply oblivious_bind; [|intros; apply oblivious_ret].
  apply oblivious_with_open, oblivious_float2mozzi_body.
Qed.

End ScriptFacts.

(** ** What the run writes *)

Lemma list_byte_of_string_app (a b : string) :
  list_byte_of_string (a +:+ b) = list_byte_of_string a ++ list_byte_of_string b.
Proof.
  unfold list_byte_of_string.
  induction a as [|c a IH]; [reflexivity|].
  simpl. now rewrite IH.
Qed.

Lemma bind_inv {A B : Type} (c : M A) (k : A -> M B) (w w' : world) (b : B) :
  bind c k w = (Ok b, w') ->
  exists a w1, c w = (Ok a, w1) /\ k a w1 = (Ok b, w').
Proof.
  unfold bind. destruct (c w) as [[a|x] w1]; [|discriminate].
  intros H. now exists a, w1.
Qed.

Lemma file_write_inv (path text : string) (w w' : world) (r : outcome unit) :
  file_write path text w = (r, w') ->
  fs w' !! path = Some (written path w ++ list_byte_of_string text).
Proof.
  unfold file_write, written. intros H. inversion H; subst. cbn [fs set_fs log_event].
  apply lookup_insert_eq.
Qed.

Lemma written_lookup (path : string) (w : world) (content : list byte) :
  fs w !! path = Some content -> written path w = content.
Proof. unfold written. now intros ->. Qed.

Lemma print_inv (text : string) (w w' : world) (r : outcome unit) :
  print text w = (r, w') -> fs w' = fs w.
Proof. unfold print. intros H. now inversion H. Qed.

Lemma read_in_values_fs (args : Namespace) (input_path : string) (w w' : world)
    (r : outcome (list pyval)) :
  read_in_values args input_path w = (r, w') -> fs w' = fs w.
Proof.
  unfold read_in_values, bind, stat_size, lift, array_fromfile, file_read, raise, ret.
  cbn [fs log_event].
  destruct (fs w !! input_path) as [content|]; [|intros H; now inversion H].
  destruct (num_input_values_of _ _) as [n|x]; [|intros H; now inversion H].
  destruct (array_array _) as [tc|x]; [|intros H; now inversion H].
  destruct (n <? 0); [intros H; now inversion H|].
  unfold bind. cbn [fs log_event]. rewrite ?Hc.
  destruct (fs w !! input_path); destruct (negb _); intros H; now inversion H.
Qed.

Lemma upper_replace_char (c : ascii) :
  negb (is_lower (upper_char (if Ascii.eqb c "-" then "_"%char else c)))
  && negb (Ascii.eqb (upper_char (if Ascii.eqb c "-" then "_"%char else c)) "-") = true.
Proof. destruct c as [[] [] [] [] [] [] [] []]; reflexivity. Qed.

Lemma upper_replace_hyphens_clean (s : string) :
  str_forall (fun c => negb (is_lower c) && negb (Ascii.eqb c "-"))
             (upper (replace_hyphens s)) = true.
Proof.
  induction s as [|c s IH]; [reflexivity|].
  cbn [replace_hyphens upper str_map str_forall].
  unfold upper, replace_hyphens in IH. rewrite IH, upper_replace_char. reflexivity.
Qed.

Lemma replace_hyphens_ascii (s : string) :
  str_forall is_ascii s = true -> str_forall is_ascii (replace_hyphens s) = true.
Proof.
  induction s as [|c s IH]; [reflexivity|].
  cbn [replace_hyphens str_map str_forall]. intros H.
  apply andb_prop in H as [Hc Hs]. unfold replace_hyphens in IH. rewrite (IH Hs), andb_true_r.
  destruct (Ascii.eqb c "-"); [reflexivity | exact Hc].
Qed.

Section ScriptClaims.

Variable expanduser : string -> string.
Variable with_suffix : string -> string -> string.
Variable stem : string -> string.
Variable str_upper : string -> string.
Variable textwrap_fill : string -> Z -> string.
Variable float_repr : spec_float -> string.

Local Abbreviation run :=
  (float2mozzi expanduser with_suffix stem str_upper textwrap_fill float_repr).

(** C9.  For an input file whose decoded sequence has no three
    consecutive 33s, with [--make-symmetrical] off, two runs on the same
    files with the same arguments end the same way and leave the same
    files (so the same output text) and the same printed lines,
    whatever the random generator does; neither run draws from it. *)
Theorem output_is_deterministic
    (args : Namespace) (files : gmap string (list byte)) (e1 e2 : nat -> bool) :
  make_symmetrical args = false ->
  (forall content,
      files !! expanduser (input_file args) = Some content ->
      no_triple_33 (decoded_sequence args content) = true) ->
  fst (run args (initial_world files e1)) = fst (run args (initial_world files e2))
  /\ fs (snd (run args (initial_world files e1)))
     = fs (snd (run args (initial_world files e2)))
  /\ stdout (snd (run args (initial_world files e1)))
     = stdout (snd (run args (initial_world files e2)))
  /\ draws (snd (run args (initial_world files e1))) = 0%nat
  /\ draws (snd (run args (initial_world files e2))) = 0%nat.
Proof.
  intros _ _.
  pose proof (oblivious_float2mozzi expanduser with_suffix stem str_upper textwrap_fill
                float_repr args (initial_world files e1) e2 0%nat) as H.
  change (reseed e2 0 (initial_world files e1)) with (initial_world files e2) in H.
  rewrite H. cbn [fst snd reseed fs stdout draws].
  repeat split.
  pose proof (oblivious_float2mozzi expanduser with_suffix stem str_upper textwrap_fill
                float_repr args (initial_world files e1) e1 0%nat) as H1.
  change (reseed e1 0 (initial_world files e1)) with (initial_world files e1) in H1.
  rewrite H1. reflexivity.
Qed.


(** ** The emitted header *)

(** C10 (as amended).  When the run succeeds, the output file holds, in
    order: the guard lines [#ifndef NAME_H_] and [#define NAME_H_], the
    two include lines, the macros [NAME_NUM_CELLS] (the number of
    decoded samples) and [NAME_SAMPLERATE], the declaration
    [CONSTTABLE_STORAGE(int<bits>_t) NAME_DATA [] = {...};] with the
    values joined by a comma and a space, the whole declaration passed
    through [textwrap.fill] with width 80, and the closing [#endif]
    line.  The same NAME is used throughout: it is the [--table-name]
    argument as given when there is one, and otherwise the stem of the
    output path with hyphens replaced by underscores and put in upper
    case by [str.upper]; when that stem is ASCII, on which [str.upper]
    is the ASCII case mapping, the name holds no hyphen and no
    lower-case ASCII letter. *)
Theorem header_layout (args : Namespace) (w w' : world) :
  run args w = (Ok 0, w') ->
  exists in_values out_values,
    out_values_of args in_values = Ok out_values
    /\ fs w' !! output_path_of expanduser with_suffix args
       = Some (list_byte_of_string
                 (header_text (tablename_of expanduser with_suffix stem str_upper args)
                    (Z.of_nat (length in_values)) (sample_rate args)
                  +:+ textwrap_fill
                        (table_text float_repr args
                           (tablename_of expanduser with_suffix stem str_upper args)
                           out_values) 80
                  +:+ footer_text (tablename_of expanduser with_suffix stem str_upper args)))
    /\ (forall t, table_name args = Some t ->
                  tablename_of expanduser with_suffix stem str_upper args = t)
    /\ (table_name args = None ->
        tablename_of expanduser with_suffix stem str_upper args
        = str_upper (replace_hyphens (stem (output_path_of expanduser with_suffix args)))
        /\ ((forall s, str_forall is_ascii s = true -> str_upper s = upper s) ->
            str_forall is_ascii (stem (output_path_of expanduser with_suffix args)) = true ->
            tablename_of expanduser with_suffix stem str_upper args
            = upper (replace_hyphens (stem (output_path_of expanduser with_suffix args)))
            /\ str_forall (fun c => negb (is_lower c) && negb (Ascii.eqb c "-"))
                 (tablename_of expanduser with_suffix stem str_upper args) = true)).
Proof.
  intros H. unfold float2mozzi in H.
  apply bind_inv in H as (u & w1 & Hwith & Hret).
  unfold ret in Hret. inversion Hret; subst w'; clear Hret.
  unfold with_open, open_rb, open_w in Hwith.
  set (ip := expanduser (input_file args)) in *.
  set (op := output_path_of expanduser with_suffix args) in *.
  set (name := tablename_of expanduser with_suffix stem str_upper args) in *.
  destruct (fs (log_event (EvOpenRead ip) w) !! ip); [|discriminate].
  destruct (writable _ op); [|discriminate].
  match type of Hwith with
  | context [float2mozzi_body _ _ _ _ _ _ _ _ _ ?x] =>
      set (w2 := x) in *;
      destruct (float2mozzi_body expanduser with_suffix stem str_upper textwrap_fill
                  float_repr args ip op w2) as [r w3] eqn:Hbody
  end.
  inversion Hwith; subst r w1; clear Hwith.
  assert (H0 : written op w2 = []).
  { apply written_lookup. unfold w2. cbn [fs set_fs]. apply lookup_insert_eq. }
  unfold float2mozzi_body in Hbody. fold name in Hbody.
  apply bind_inv in Hbody as (? & wa & Hpr & Hbody). apply print_inv in Hpr.
  apply bind_inv in Hbody as (in_values & wb & Hread & Hbody).
  apply read_in_values_fs in Hread.
  apply bind_inv in Hbody as (? & w4 & Hw1 & Hbody). apply file_write_inv in Hw1.
  apply bind_inv in Hbody as (? & w5 & Hw2 & Hbody). apply file_write_inv in Hw2.
  apply bind_inv in Hbody as (? & w6 & Hw3 & Hbody). apply file_write_inv in Hw3.
  apply bind_inv in Hbody as (? & w7 & Hw4 & Hbody). apply file_write_inv in Hw4.
  apply bind_inv in Hbody as (? & w8 & Hw5 & Hbody). apply file_write_inv in Hw5.
  apply bind_inv in Hbody as (? & w9 & Hw6 & Hbody). apply file_write_inv in Hw6.
  apply bind_inv in Hbody as (out_values & wc & Hcomp & Hbody).
  rewrite compute_out_values_eq in Hcomp. inversion Hcomp as [[Hout Hwc]]; subst wc.
  apply bind_inv in Hbody as (? & w10 & Hw7 & Hbody). apply file_write_inv in Hw7.
  apply bind_inv in Hbody as (? & w11 & Hw8 & Hbody). apply file_write_inv in Hw8.
  apply bind_inv in Hbody as (? & w12 & Hw9 & Hbody). apply file_write_inv in Hw9.
  apply print_inv in Hbody.
  assert (Hwb : written op wb = []) by (unfold written in *; now rewrite Hread, Hpr).
  exists in_values, out_values. split; [exact Hout|]. split; [|split].
  - unfold close. cbn [fs log_event]. rewrite Hbody, Hw9.
    rewrite (written_lookup _ _ _ Hw8), (written_lookup _ _ _ Hw7),
      (written_lookup _ _ _ Hw6), (written_lookup _ _ _ Hw5),
      (written_lookup _ _ _ Hw4), (written_lookup _ _ _ Hw3),
      (written_lookup _ _ _ Hw2), (written_lookup _ _ _ Hw1), Hwb.
    f_equal. unfold header_text, footer_text.
    rewrite !list_byte_of_string_app, <- !app_assoc. reflexivity.
  - intros t Ht. unfold name, tablename_of. now rewrite Ht.
  - intros Ht. unfold name, tablename_of. rewrite Ht. split; [reflexivity|].
    intros Hup Hascii. rewrite Hup by (now apply replace_hyphens_ascii).
    split; [reflexivity | apply upper_replace_hyphens_clean].
Qed.

End ScriptClaims.

Lemma output_is_deterministic_witness :
  let files : gmap string (list byte) := {[ "in.raw" := [x0a; xfb; x21; x21; x07] ]} in
  let run := float2mozzi plain_expanduser plain_with_suffix plain_stem upper plain_fill
               plain_float_repr (default_args "in.raw") in
  fst (run (initial_world files (fun _ => true))) = Ok 0
  /\ fst (run (initial_world files (fun _ => false))) = Ok 0
  /\ fs (snd (run (initial_world files (fun _ => true))))
     = fs (snd (run (initial_world files (fun _ => false)))).
Proof.
  cbv zeta.
  destruct (output_is_deterministic plain_expanduser plain_with_suffix plain_stem upper
              plain_fill plain_float_repr (default_args "in.raw")
              {[ "in.raw" := [x0a; xfb; x21; x21; x07] ]}
              (fun _ => true) (fun _ => false)) as (Hr & Hfs & _).
  - reflexivity.
  - intros content H. vm_compute in H. inversion H. reflexivity.
  - split; [vm_compute; reflexivity|]. split; [vm_compute; reflexivity|]. exact Hfs.
Defined.


Lemma header_layout_witness :
  let args := default_args "in.raw" in
  let w := initial_world {[ "in.raw" := [x0a; xfb] ]} (fun _ => true) in
  let r := float2mozzi plain_expanduser plain_with_suffix plain_stem upper plain_fill
             plain_float_repr args w in
  (exists in_values out_values,
     out_values_of args in_values = Ok out_values
     /\ fs (snd r) !! "in.h"
        = Some (list_byte_of_string
                  (header_text "IN" (Z.of_nat (length in_values)) 16384
                   +:+ plain_fill (table_text plain_float_repr args "IN" out_values) 80
                   +:+ footer_text "IN")))
  /\ tablename_of plain_expanduser plain_with_suffix plain_stem upper args
     = upper (replace_hyphens (plain_stem "in.h"))
  /\ str_forall (fun c => negb (is_lower c) && negb (Ascii.eqb c "-"))
       (tablename_of plain_expanduser plain_with_suffix plain_stem upper args) = true.
Proof.
  cbv zeta.
  destruct (header_layout plain_expanduser plain_with_suffix plain_stem upper plain_fill
              plain_float_repr (default_args "in.raw")
              (initial_world {[ "in.raw" := [x0a; xfb] ]} (fun _ => true))
              (snd (float2mozzi plain_expanduser plain_with_suffix plain_stem upper
                      plain_fill plain_float_repr (default_args "in.raw")
                      (initial_world {[ "in.raw" := [x0a; xfb] ]} (fun _ => true)))))
    as (in_values & out_values & Hout & Hfile & _ & Hname).
  - vm_compute. reflexivity.
  - split.
    + exists in_values, out_values. split; [exact Hout | exact Hfile].
    + destruct (Hname eq_refl) as (_ & Hclean).
      apply Hclean; [intros s _; reflexivity | vm_compute; reflexivity].
Defined.

(** C10 (the claim as stated fails).  With [--table-name my-table] the
    name is used as given: it keeps its lower-case letters and its
    hyphen, and the guard line reads [#ifndef my-table_H_]. *)
Lemma explicit_table_name_is_kept_counterexample :
  let args := mkArgs "int" 8 8 "in.raw" None (Some "my-table") 16384 false in
  let r := float2mozzi plain_expanduser plain_with_suffix plain_stem upper plain_fill
             plain_float_repr args
             (initial_world {[ "in.raw" := [x0a; xfb] ]} (fun _ => true)) in
  tablename_of plain_expanduser plain_with_suffix plain_stem upper args = "my-table"
  /\ str_forall (fun c => negb (is_lower c) && negb (Ascii.eqb c "-")) "my-table" = false
  /\ upper (replace_hyphens "my-table") = "MY_TABLE"
  /\ fst r = Ok 0
  /\ fs (snd r) !! "in.h"
     = Some (list_byte_of_string
               (header_text "my-table" 2 16384
                +:+ "CONSTTABLE_STORAGE(int8_t) my-table_DATA [] = {10, -5};"
                +:+ footer_text "my-table"))
  /\ nth_error (io_log (snd r)) 4 = Some (EvWrite "in.h" ("#ifndef my-table_H_" +:+ nl)).
Proof. cbv zeta. repeat split; vm_compute; reflexivity. Qed.

(** C3 (the code departs from the claim).  On the 8-bit file of bytes
    10, -5, 33, 33, 33 with the default options the run succeeds, draws
    nothing, and writes [IN_NUM_CELLS 5] and an array of the five decoded
    values; no sixth element follows the third 33. *)
Theorem num_cells_on_triple_33_file (e : nat -> bool) :
  let cl := mkCmd None None None (Some "in.raw") None None None false in
  let r := main plain_expanduser plain_with_suffix plain_stem upper plain_fill
             plain_float_repr cl
             (initial_world {[ "in.raw" := [x0a; xfb; x21; x21; x21] ]} e) in
  fst r = Raise (SystemExit 0)
  /\ draws (snd r) = 0%nat
  /\ fs (snd r) !! "in.h"
     = Some (list_byte_of_string
               (header_text "IN" 5 16384
                +:+ "CONSTTABLE_STORAGE(int8_t) IN_DATA [] = {10, -5, 33, 33, 33};"
                +:+ footer_text "IN"))
  /\ nth_error (io_log (snd r)) 8
     = Some (EvWrite "in.h" ("#define IN_NUM_CELLS 5" +:+ nl)).
Proof. cbv zeta. repeat split; vm_compute; reflexivity. Qed.

(** * Further properties of the run *)

(** ** The steps of a run *)

Lemma bind_file_write {B : Type} (path text : string) (k : unit -> M B) (w : world) :
  bind (file_write path text) k w = k tt (snd (file_write path text w)).
Proof. reflexivity. Qed.

Lemma bind_print {B : Type} (text : string) (k : unit -> M B) (w : world) :
  bind (print text) k w = k tt (snd (print text w)).
Proof. reflexivity. Qed.

Lemma fs_file_write (path text : string) (w : world) :
  fs (snd (file_write path text w))
  = <[path := written path w ++ list_byte_of_string text]> (fs w).
Proof. reflexivity. Qed.

Lemma fs_write_lines (path : string) (texts : list string) : forall (w : world) (c : list byte),
  fs w !! path = Some c ->
  fs (write_lines path texts w) = <[path := c ++ bytes_of_lines texts]> (fs w).
Proof.
  induction texts as [|t rest IH]; intros w c Hc.
  - cbn. rewrite app_nil_r. symmetry. now apply insert_id.
  - cbn [write_lines fold_left]. fold (write_lines path rest (snd (file_write path t w))).
    rewrite (IH _ (c ++ list_byte_of_string t)).
    + rewrite fs_file_write, insert_insert_eq. unfold bytes_of_lines.
      cbn [map concat]. now rewrite app_assoc.
    + rewrite fs_file_write. unfold written. rewrite Hc. apply lookup_insert_eq.
Qed.

Lemma stdout_write_lines (path : string) (texts : list string) (w : world) :
  stdout (write_lines path texts w) = stdout w.
Proof.
  revert w. induction texts as [|t rest IH]; intros w; [reflexivity|].
  cbn [write_lines fold_left]. fold (write_lines path rest (snd (file_write path t w))).
  now rewrite IH.
Qed.

Lemma io_log_write_lines (path : string) (texts : list string) (w : world) :
  io_log (write_lines path texts w) = io_log w ++ map (EvWrite path) texts.
Proof.
  revert w. induction texts as [|t rest IH]; intros w.
  - cbn. now rewrite app_nil_r.
  - cbn [write_lines fold_left]. fold (write_lines path rest (snd (file_write path t w))).
    rewrite IH. cbn [file_write snd io_log set_fs log_event map].
    now rewrite <- app_assoc.
Qed.

Lemma bytes_of_header_lines (tablename : string) (num_cells sample_rate : Z) :
  bytes_of_lines (header_lines tablename num_cells sample_rate)
  = list_byte_of_string (header_text tablename num_cells sample_rate).
Proof.
  unfold bytes_of_lines, header_lines, header_text. cbn [map concat].
  rewrite !list_byte_of_string_app, <- !app_assoc, app_nil_r. reflexivity.
Qed.

Lemma read_in_values_stdout (args : Namespace) (input_path : string) (w : world) :
  stdout (snd (read_in_values args input_path w)) = stdout w.
Proof.
  unfold read_in_values, bind, stat_size, lift, array_fromfile, file_read, raise, ret.
  cbn [fs stdout log_event].
  destruct (fs w !! input_path) as [content|]; [|reflexivity].
  destruct (num_input_values_of _ _) as [n|x]; [|reflexivity].
  destruct (array_array _) as [tc|x]; [|reflexivity].
  destruct (n <? 0); [reflexivity|].
  unfold bind. cbn [fs stdout log_event].
  destruct (fs w !! input_path); destruct (negb _); reflexivity.
Qed.

Lemma out_values_of_length (args : Namespace) (in_values out_values : list pyval) :
  out_values_of args in_values = Ok out_values -> length out_values = length in_values.
Proof.
  unfold out_values_of.
  destruct (py_lshift 2 (output_bits args - 2)) as [m|x]; [|discriminate]. cbn [obind].
  destruct (omap (convert_value args m) in_values) as [mid|x] eqn:Hmid; [|discriminate].
  cbn [obind]. apply omap_length in Hmid.
  destruct (make_symmetrical args).
  - unfold symmetrical. destruct (py_in _ mid).
    + intros H. apply omap_length in H. congruence.
    + intros H. inversion H. congruence.
  - intros H. inversion H. congruence.
Qed.

Section RunFacts.

Variable expanduser : string -> string.
Variable with_suffix : string -> string -> string.
Variable stem : string -> string.
Variable str_upper : string -> string.
Variable textwrap_fill : string -> Z -> string.
Variable float_repr : spec_float -> string.

Local Abbreviation run :=
  (float2mozzi expanduser with_suffix stem str_upper textwrap_fill float_repr).
Local Abbreviation body :=
  (float2mozzi_body expanduser with_suffix stem str_upper textwrap_fill float_repr).
Local Abbreviation name_of := (tablename_of expanduser with_suffix stem str_upper).
Local Abbreviation out_path := (output_path_of expanduser with_suffix).

Lemma float2mozzi_body_run (args : Namespace) (ip op : string) (w : world) :
  body args ip op w =
  match read_in_values args ip (snd (print ("opened " +:+ ip) w)) with
  | (Raise e, w2) => (Raise e, w2)
  | (Ok in_values, w2) =>
      let w3 := write_lines op
                  (header_lines (name_of args) (Z.of_nat (length in_values))
                     (sample_rate args)) w2 in
      match out_values_of args in_values with
      | Raise e => (Raise e, w3)
      | Ok out_values =>
          let table := textwrap_fill
                         (table_text float_repr args (name_of args) out_values) 80 in
          (Ok tt,
           snd (print ("wrote " +:+ table +:+ " to " +:+ op)
                  (write_lines op
                     [table; nl +:+ nl; "#endif /* " +:+ name_of args +:+ "_H_ */" +:+ nl]
                     w3)))
      end
  end.
Proof.
  unfold float2mozzi_body. rewrite bind_print.
  unfold bind at 1.
  destruct (read_in_values args ip _) as [[in_values|e] w2]; [|reflexivity].
  rewrite !bind_file_write.
  unfold bind at 1. rewrite compute_out_values_eq.
  unfold write_lines, header_lines. cbn [fold_left].
  destruct (out_values_of args in_values) as [out_values|e]; [|reflexivity].
  rewrite !bind_file_write. reflexivity.
Qed.

Lemma float2mozzi_run (args : Namespace) (w : world) :
  run args w =
  match fs w !! expanduser (input_file args) with
  | None =>
      (Raise (FileNotFoundError (expanduser (input_file args))),
       log_event (EvOpenRead (expanduser (input_file args))) w)
  | Some _ =>
      if writable w (out_path args) then
        match body args (expanduser (input_file args)) (out_path args)
                (opened (expanduser (input_file args)) (out_path args) w) with
        | (Ok _, w3) =>
            (Ok 0, close (expanduser (input_file args)) (close (out_path args) w3))
        | (Raise e, w3) =>
            (Raise e, close (expanduser (input_file args)) (close (out_path args) w3))
        end
      else
        (Raise (FileNotFoundError (out_path args)),
         close (expanduser (input_file args))
           (log_event (EvOpenWrite (out_path args))
              (log_event (EvOpenRead (expanduser (input_file args))) w)))
  end.
Proof.
  unfold float2mozzi, bind, with_open, open_rb. cbn [fs log_event].
  destruct (fs w !! expanduser (input_file args)); [|reflexivity].
  unfold open_w.
  change (writable (log_event (EvOpenWrite (out_path args))
                      (log_event (EvOpenRead (expanduser (input_file args))) w))
            (out_path args))
    with (writable w (out_path args)).
  destruct (writable w (out_path args)); [|reflexivity].
  unfold opened. cbn [fs log_event].
  destruct (float2mozzi_body _ _ _ _ _ _ _ _ _) as [[u|e] w3]; reflexivity.
Qed.

(** The whole text of a finished header. *)
Local Abbreviation full_text args n out :=
  (header_text (name_of args) n (sample_rate args)
   +:+ textwrap_fill (table_text float_repr args (name_of args) out) 80
   +:+ footer_text (name_of args)).

Lemma run_outcome (args : Namespace) (w : world) (content : list byte) (tc : typecode) :
  fs w !! expanduser (input_file args) = Some content ->
  writable w (out_path args) = true ->
  Z.of_nat (length (content_when_read (expanduser (input_file args)) (out_path args) content))
    < 2 ^ 53 ->
  valid_bits (input_bits args) ->
  array_array (array_type_of args) = Ok tc ->
  Z.of_nat (itemsize tc) = input_bits args / 8 ->
  let ip := expanduser (input_file args) in
  let op := out_path args in
  let in_values := decode_items tc (content_when_read ip op content) in
  let n := Z.of_nat (length in_values) in
  match out_values_of args in_values with
  | Ok out_values =>
      fst (run args w) = Ok 0
      /\ fs (snd (run args w))
         = <[op := list_byte_of_string (full_text args n out_values)]> (fs w)
      /\ stdout (snd (run args w))
         = stdout w ++ ["opened " +:+ ip;
                        "wrote " +:+ textwrap_fill
                                       (table_text float_repr args (name_of args) out_values) 80
                          +:+ " to " +:+ op]
  | Raise e =>
      fst (run args w) = Raise e
      /\ fs (snd (run args w))
         = <[op := list_byte_of_string
                     (header_text (name_of args) n (sample_rate args))]> (fs w)
      /\ stdout (snd (run args w)) = stdout w ++ ["opened " +:+ ip]
  end.
Proof.
  intros Hfs Hwr Hsz Hbits Htc Hitem ip op in_values n.
  rewrite float2mozzi_run, Hfs, Hwr, float2mozzi_body_run. fold ip op.
  set (w2 := snd (print ("opened " +:+ ip) (opened ip op w))).
  assert (Hfs2 : fs w2 = <[op := []]> (fs w)) by reflexivity.
  assert (Hout2 : stdout w2 = stdout w ++ ["opened " +:+ ip]) by reflexivity.
  assert (Hread : fs w2 !! ip = Some (content_when_read ip op content)).
  { rewrite Hfs2. unfold content_when_read.
    destruct (String.eqb_spec op ip) as [->|Hne].
    - apply lookup_insert_eq.
    - now rewrite lookup_insert_ne. }
  rewrite (read_in_values_ok args ip w2 _ tc Hread Hsz Hbits Htc Hitem).
  set (w3 := log_event _ (log_event (EvStat ip) w2)).
  assert (Hfs3 : fs w3 = <[op := []]> (fs w)) by exact Hfs2.
  assert (Hnil : fs w3 !! op = Some []) by (rewrite Hfs3; apply lookup_insert_eq).
  fold in_values. fold n. cbv zeta.
  set (w4 := write_lines op (header_lines (name_of args) n (sample_rate args)) w3).
  assert (Hfs4 : fs w4 = <[op := list_byte_of_string
                                   (header_text (name_of args) n (sample_rate args))]> (fs w)).
  { unfold w4. rewrite (fs_write_lines op _ w3 [] Hnil), Hfs3, insert_insert_eq.
    cbn [app]. now rewrite bytes_of_header_lines. }
  assert (Hout4 : stdout w4 = stdout w ++ ["opened " +:+ ip]).
  { unfold w4. now rewrite stdout_write_lines. }
  destruct (out_values_of args in_values) as [out_values|e]; cbn [fst snd].
  - split; [reflexivity|]. split.
    + unfold close. cbn [fs log_event print snd].
      rewrite (fs_write_lines op _ w4 _ ltac:(rewrite Hfs4; apply lookup_insert_eq)).
      rewrite Hfs4, insert_insert_eq. f_equal.
      unfold bytes_of_lines, footer_text. cbn [map concat].
      rewrite !list_byte_of_string_app, <- !app_assoc, app_nil_r. reflexivity.
    + unfold close. cbn [stdout log_event print snd].
      rewrite stdout_write_lines, Hout4, <- app_assoc. reflexivity.
  - split; [reflexivity|]. split; [exact Hfs4 | exact Hout4].
Qed.

End RunFacts.

Lemma content_when_read_other (ip op : string) (content : list byte) :
  op <> ip -> content_when_read ip op content = content.
Proof.
  intros H. unfold content_when_read. now destruct (String.eqb_spec op ip).
Qed.

Lemma content_when_read_same (ip : string) (content : list byte) :
  content_when_read ip ip content = [].
Proof. unfold content_when_read. now rewrite String.eqb_refl. Qed.

Lemma out_values_of_nil (args : Namespace) :
  valid_bits (output_bits args) -> out_values_of args [] = Ok [].
Proof.
  intros Hob. unfold out_values_of.
  assert (Hm : exists m, py_lshift 2 (output_bits args - 2) = Ok m).
  { destruct Hob as [H | [H | H]]; rewrite H; eexists; reflexivity. }
  destruct Hm as [m ->]. cbn [obind omap].
  destruct (make_symmetrical args); reflexivity.
Qed.

Lemma out_values_of_integer (args : Namespace) (content : list byte) :
  is_float_encoding args = false ->
  valid_bits (input_bits args) -> valid_bits (output_bits args) ->
  make_symmetrical args = false \/ input_bits args <= output_bits args ->
  out_values_of args (decoded_sequence args content) = Ok (decoded_sequence args content).
Proof.
  intros Henc Hib Hob [Hflag | Hle].
  - unfold out_values_of.
    assert (Hm : exists m, py_lshift 2 (output_bits args - 2) = Ok m).
    { destruct Hob as [H | [H | H]]; rewrite H; eexists; reflexivity. }
    destruct Hm as [m ->]. cbn [obind].
    unfold convert_value. now rewrite Henc, omap_Ok, Hflag.
  - destruct (integer_path_fits args content (initial_world ∅ (fun _ => true))
                Henc Hib Hob Hle) as (out & Hrun & -> & _).
    rewrite compute_out_values_eq in Hrun. now inversion Hrun.
Qed.

Lemma decoded_sequence_typed (args : Namespace) (content : list byte) (tc : typecode) :
  array_array (array_type_of args) = Ok tc ->
  decoded_sequence args content = decode_items tc content.
Proof. intros H. unfold decoded_sequence. now rewrite H. Qed.

Lemma rescale_nan_or_infinity (m : Z) (v : pyval) :
  is_nan_or_infinity v = true -> exists e, rescale m v = Raise e.
Proof.
  destruct v as [z|[s|s| |s mx ex]]; try discriminate; intros _;
    unfold rescale, py_mul, py_to_float, py_float_of_int.
  - destruct (PyFloat.of_Z m) as [s'|s'| |s' m' e']; cbn; eauto.
  - destruct (PyFloat.of_Z m) as [s'|s'| |s' m' e']; cbn; eauto.
Qed.

Lemma omap_Exists_raises {A B : Type} (f : A -> outcome B) (p : A -> bool) (l : list A) :
  (forall x, p x = true -> exists e, f x = Raise e) ->
  existsb p l = true -> exists e, omap f l = Raise e.
Proof.
  intros Hf. induction l as [|x rest IH]; [discriminate|].
  cbn [existsb omap]. intros H.
  destruct (f x) as [y|e] eqn:Hx; [|eauto]. cbn [obind].
  destruct (p x) eqn:Hp.
  - destruct (Hf x Hp) as [e He]. congruence.
  - destruct (IH H) as [e ->]. eauto.
Qed.

Lemma decode_items_nil (tc : typecode) : decode_items tc [] = [].
Proof. now destruct tc. Qed.

(** ** Runs on a missing, an empty or an overwritten input *)

Section RunProperties.

Variable expanduser : string -> string.
Variable with_suffix : string -> string -> string.
Variable stem : string -> string.
Variable str_upper : string -> string.
Variable textwrap_fill : string -> Z -> string.
Variable float_repr : spec_float -> string.

Local Abbreviation run :=
  (float2mozzi expanduser with_suffix stem str_upper textwrap_fill float_repr).
Local Abbreviation name_of := (tablename_of expanduser with_suffix stem str_upper).
Local Abbreviation out_path := (output_path_of expanduser with_suffix).
Local Abbreviation in_path args := (expanduser (input_file args)).
Local Abbreviation full_text args n out :=
  (header_text (name_of args) n (sample_rate args)
   +:+ textwrap_fill (table_text float_repr args (name_of args) out) 80
   +:+ footer_text (name_of args)).
Local Abbreviation outcome_of :=
  (run_outcome expanduser with_suffix stem str_upper textwrap_fill float_repr).







End RunProperties.







(** ** What every run keeps *)

Lemma fs_write_lines_other (path : string) (texts : list string) (w : world) (q : string) :
  q <> path -> fs (write_lines path texts w) !! q = fs w !! q.
Proof.
  intros Hq. revert w. induction texts as [|t rest IH]; intros w; [reflexivity|].
  cbn [write_lines fold_left]. fold (write_lines path rest (snd (file_write path t w))).
  rewrite IH, fs_file_write. now apply lookup_insert_ne.
Qed.

Lemma read_in_values_log (args : Namespace) (input_path : string) (w : world) :
  exists l, io_log (snd (read_in_values args input_path w)) = io_log w ++ l
            /\ forallb is_data_event l = true.
Proof.
  unfold read_in_values, bind, stat_size, lift, array_fromfile, file_read, raise, ret.
  cbn [fs io_log log_event].
  destruct (fs w !! input_path) as [content|];
    [|exists [EvStat input_path]; split; reflexivity].
  destruct (num_input_values_of _ _) as [n|x];
    [|exists [EvStat input_path]; split; reflexivity].
  destruct (array_array _) as [tc|x];
    [|exists [EvStat input_path]; split; reflexivity].
  destruct (n <? 0); [exists [EvStat input_path]; split; reflexivity|].
  unfold bind. cbn [fs io_log log_event].
  exists [EvStat input_path; EvRead input_path (n * Z.of_nat (itemsize tc))].
  destruct (fs w !! input_path); destruct (negb _); cbn [snd io_log log_event];
    (split; [rewrite <- ?app_assoc; reflexivity | reflexivity]).
Qed.

Section RunInvariants.

Variable expanduser : string -> string.
Variable with_suffix : string -> string -> string.
Variable stem : string -> string.
Variable str_upper : string -> string.
Variable textwrap_fill : string -> Z -> string.
Variable float_repr : spec_float -> string.

Local Abbreviation run :=
  (float2mozzi expanduser with_suffix stem str_upper textwrap_fill float_repr).
Local Abbreviation name_of := (tablename_of expanduser with_suffix stem str_upper).
Local Abbreviation out_path := (output_path_of expanduser with_suffix).
Local Abbreviation in_path args := (expanduser (input_file args)).
Local Abbreviation full_text args n out :=
  (header_text (name_of args) n (sample_rate args)
   +:+ textwrap_fill (table_text float_repr args (name_of args) out) 80
   +:+ footer_text (name_of args)).

(** X7.  Whenever a run returns, the cell count written in the header is
    the number of values of the array written after it: the output file
    holds the header for some sequence of values and for its length. *)
Theorem cell_count_is_the_array_length (args : Namespace) (w w' : world) :
  run args w = (Ok 0, w') ->
  exists out_values,
    fs w' !! out_path args
    = Some (list_byte_of_string
              (full_text args (Z.of_nat (length out_values)) out_values)).
Proof.
  rewrite float2mozzi_run.
  destruct (fs w !! in_path args); [|discriminate].
  destruct (writable w (out_path args)); [|discriminate].
  rewrite float2mozzi_body_run.
  set (w2 := snd (print _ (opened (in_path args) (out_path args) w))).
  assert (Hfs2 : fs w2 !! out_path args = Some []) by apply lookup_insert_eq.
  destruct (read_in_values args (in_path args) w2) as [[in_values|e] w3] eqn:Hread;
    [|discriminate].
  apply read_in_values_fs in Hread. rewrite <- Hread in Hfs2.
  cbv zeta.
  destruct (out_values_of args in_values) as [out_values|e] eqn:Hout; [|discriminate].
  intros H. apply (f_equal snd) in H. cbn [snd] in H. subst w'.
  exists out_values. unfold close. cbn [fs log_event print snd].
  rewrite (out_values_of_length _ _ _ Hout).
  set (w4 := write_lines (out_path args) (header_lines _ _ _) w3).
  assert (Hfs4 : fs w4 !! out_path args
                 = Some (list_byte_of_string
                           (header_text (name_of args) (Z.of_nat (length in_values))
                              (sample_rate args)))).
  { unfold w4. rewrite (fs_write_lines _ _ w3 [] Hfs2), lookup_insert_eq.
    cbn [app]. now rewrite bytes_of_header_lines. }
  rewrite (fs_write_lines _ _ w4 _ Hfs4), lookup_insert_eq. f_equal.
  unfold bytes_of_lines, footer_text. cbn [map concat].
  rewrite !list_byte_of_string_app, <- !app_assoc, app_nil_r. reflexivity.
Qed.



End RunInvariants.

Lemma cell_count_is_the_array_length_witness :
  exists out_values : list pyval,
    length out_values = 3%nat
    /\ fs (snd (float2mozzi plain_expanduser plain_with_suffix plain_stem upper plain_fill
                  plain_float_repr (default_args "in.raw")
                  (initial_world {[ "in.raw" := [x0a; xfb; x21] ]} (fun _ => true))))
         !! "in.h"
       = Some (list_byte_of_string
                 (header_text "IN" 3 16384
                  +:+ table_text plain_float_repr (default_args "in.raw") "IN" out_values
                  +:+ footer_text "IN")).
Proof.
  destruct (cell_count_is_the_array_length plain_expanduser plain_with_suffix plain_stem upper
              plain_fill plain_float_repr (default_args "in.raw")
              (initial_world {[ "in.raw" := [x0a; xfb; x21] ]} (fun _ => true))
              (snd (float2mozzi plain_expanduser plain_with_suffix plain_stem upper plain_fill
                      plain_float_repr (default_args "in.raw")
                      (initial_world {[ "in.raw" := [x0a; xfb; x21] ]} (fun _ => true)))))
    as (out & Hout).
  - vm_compute. reflexivity.
  - exists (map PyInt [10; -5; 33]). split; [reflexivity|]. vm_compute. reflexivity.
Defined.



(** ** The symmetry flag and the decoder *)

(** X10.  In the nominal cases the flag [--make-symmetrical] changes
    nothing: with the integer encoding and an input width that does not
    exceed the output width, and with the float encoding on 32-bit
    samples between -1.0 and 1.0, the value [-max_output_value - 1] that
    triggers the pass never occurs, and the table computed with the flag
    is the table computed without it. *)
Theorem make_symmetrical_is_idle_in_range (args : Namespace) (content : list byte) :
  valid_bits (input_bits args) -> valid_bits (output_bits args) ->
  (is_float_encoding args = false /\ input_bits args <= output_bits args)
  \/ (is_float_encoding args = true /\ input_bits args = 32
      /\ Forall (fun v => within (-1) 1 v = true) (decoded_sequence args content)) ->
  exists out_values,
    out_values_of (with_make_symmetrical true args) (decoded_sequence args content)
    = Ok out_values
    /\ out_values_of (with_make_symmetrical false args) (decoded_sequence args content)
       = Ok out_values.
Proof.
  intros Hib Hob [[Henc Hle] | (Henc & H32 & Hin)].
  - exists (decoded_sequence args content). split.
    + apply (out_values_of_integer (with_make_symmetrical true args) content Henc Hib Hob).
      right. exact Hle.
    + apply (out_values_of_integer (with_make_symmetrical false args) content Henc Hib Hob).
      left. reflexivity.
  - destruct (float_path_bounded (with_make_symmetrical false args) content
                (initial_world ∅ (fun _ => true)) Henc H32 Hob Hin)
      as (out & Hrun & _ & Hall).
    rewrite compute_out_values_eq in Hrun. inversion Hrun as [Hout]. clear Hrun.
    change (decoded_sequence (with_make_symmetrical false args) content)
      with (decoded_sequence args content) in Hout.
    exists out. split; [|exact Hout].
    revert Hout. unfold out_values_of.
    change (output_bits (with_make_symmetrical true args)) with (output_bits args).
    change (output_bits (with_make_symmetrical false args)) with (output_bits args) in *.
    assert (Hm : py_lshift 2 (output_bits args - 2) = Ok (2 ^ (output_bits args - 1))).
    { destruct Hob as [H | [H | H]]; rewrite H; reflexivity. }
    rewrite Hm. cbn [obind].
    change (convert_value (with_make_symmetrical true args))
      with (convert_value (with_make_symmetrical false args)).
    destruct (omap _ (decoded_sequence args content)) as [mid|e]; [|discriminate].
    cbn [obind make_symmetrical with_make_symmetrical].
    intros H. inversion H; subst mid.
    unfold symmetrical. rewrite py_in_absent; [reflexivity|].
    eapply List.Forall_impl; [|exact Hall].
    intros v (z & -> & Hz). cbn [output_bits with_make_symmetrical] in Hz. lia.
Qed.

Lemma make_symmetrical_is_idle_in_range_witness :
  exists out_values,
    out_values_of (mkArgs "float" 32 8 "in.raw" None None 16384 true)
      [PyFloat (PyFloat.of_Z 1); PyFloat (PyFloat.of_Z (-1))] = Ok out_values
    /\ out_values_of (mkArgs "float" 32 8 "in.raw" None None 16384 false)
         [PyFloat (PyFloat.of_Z 1); PyFloat (PyFloat.of_Z (-1))] = Ok out_values.
Proof.
  apply (make_symmetrical_is_idle_in_range
           (mkArgs "float" 32 8 "in.raw" None None 16384 false)
           [x00; x00; x80; x3f; x00; x00; x80; xbf]).
  - right. right. reflexivity.
  - left. reflexivity.
  - right. split; [reflexivity|]. split; [reflexivity|]. repeat constructor.
Defined.

(** X11.  Every sample decoded with an integer type code, that is for 8
    and 16 input bits with either encoding and for 32 input bits with the
    integer encoding, is an int of the signed range of the input width. *)
Theorem decoded_integers_fit_the_input_width (args : Namespace) (content : list byte) :
  valid_bits (input_bits args) ->
  is_float_encoding args = false \/ input_bits args <> 32 ->
  Forall (fits_signed (input_bits args)) (decoded_sequence args content).
Proof.
  intros Hib Hint. unfold decoded_sequence, array_type_of.
  destruct Hib as [H | [H | H]]; rewrite H;
    cbn [Z.eqb Pos.eqb array_array String.eqb Ascii.eqb Bool.eqb].
  - apply (decode_items_signed tc_b). discriminate.
  - apply (decode_items_signed tc_h). discriminate.
  - destruct Hint as [Henc | Hne]; [|congruence]. rewrite Henc.
    apply (decode_items_signed tc_i). discriminate.
Qed.

Lemma decoded_integers_fit_the_input_width_witness :
  Forall (fits_signed 16)
         (decoded_sequence (mkArgs "float" 16 8 "in.raw" None None 16384 false)
            [x7f; xff; xe8; x03; x01]).
Proof.
  apply (decoded_integers_fit_the_input_width
           (mkArgs "float" 16 8 "in.raw" None None 16384 false)
           [x7f; xff; xe8; x03; x01]).
  - right. left. reflexivity.
  - right. discriminate.
Defined.

Lemma chunks_app (n1 n2 k : nat) (a b : list byte) :
  length a = (n1 * k)%nat ->
  chunks (n1 + n2) k (a ++ b) = chunks n1 k a ++ chunks n2 k b.
Proof.
  revert a. induction n1 as [|n1 IH]; intros a Ha.
  - destruct a; [reflexivity | discriminate].
  - cbn [chunks Nat.add app].
    assert (Hk : (k <= length a)%nat) by (rewrite Ha; cbn; lia).
    rewrite firstn_app, skipn_app.
    replace (k - length a)%nat with 0%nat by lia. cbn [firstn skipn].
    rewrite app_nil_r. f_equal. apply IH.
    rewrite length_skipn, Ha. cbn. lia.
Qed.

Lemma decode_items_app (tc : typecode) (a b : list byte) :
  (length a mod itemsize tc = 0)%nat ->
  decode_items tc (a ++ b) = decode_items tc a ++ decode_items tc b.
Proof.
  intros Hmod. unfold decode_items.
  assert (Hk : itemsize tc <> 0%nat) by (destruct tc; discriminate).
  assert (Ha : exists q, length a = (q * itemsize tc)%nat).
  { exists (length a / itemsize tc)%nat.
    pose proof (Nat.div_mod_eq (length a) (itemsize tc)). lia. }
  destruct Ha as [q Hq].
  rewrite length_app, Hq, Nat.div_add_l, Nat.div_mul by exact Hk.
  rewrite chunks_app by exact Hq. apply map_app.
Qed.

(** X12.  Decoding goes sample by sample: a file made of whole samples
    followed by more bytes decodes to the samples of the first part
    followed by those of the second, in order; and when the second part
    is shorter than one sample it adds nothing. *)
Theorem decoding_splits_at_sample_boundaries (args : Namespace) (a b : list byte) :
  valid_bits (input_bits args) ->
  Z.of_nat (length a) mod (input_bits args / 8) = 0 ->
  decoded_sequence args (a ++ b) = decoded_sequence args a ++ decoded_sequence args b
  /\ (Z.of_nat (length b) < input_bits args / 8 ->
      decoded_sequence args (a ++ b) = decoded_sequence args a).
Proof.
  intros Hib Hmod.
  destruct (array_type_ok args Hib) as (tc & Htc & Hitem).
  rewrite !(decoded_sequence_typed args _ tc Htc).
  rewrite <- Hitem in *.
  assert (Hk : itemsize tc <> 0%nat) by (destruct tc; discriminate).
  assert (Hmod' : (length a mod itemsize tc = 0)%nat).
  { apply Nat2Z.inj. rewrite Nat2Z.inj_mod. exact Hmod. }
  split; [now apply decode_items_app|].
  intros Hb. rewrite decode_items_app by exact Hmod'.
  unfold decode_items at 2. rewrite Nat.div_small by lia. cbn. apply app_nil_r.
Qed.

Lemma decoding_splits_at_sample_boundaries_witness :
  decoded_sequence (mkArgs "int" 16 8 "in.raw" None None 16384 false)
    ([x7f; xff; xe8; x03] ++ [x01])
  = map PyInt [-129; 1000].
Proof.
  destruct (decoding_splits_at_sample_boundaries
              (mkArgs "int" 16 8 "in.raw" None None 16384 false)
              [x7f; xff; xe8; x03] [x01]) as (_ & H).
  - right. left. reflexivity.
  - reflexivity.
  - rewrite H; [reflexivity|]. vm_compute. reflexivity.
Defined.

(** ** Exact sums in the double arithmetic *)

(** The lower side of [binary_round_aux_bound]: the rounded mantissa is
    not below a bound given on the grid of the target exponent. *)
Lemma binary_round_aux_lower (s : bool) (m : positive) (e c : Z) :
  -1074 <= e ->
  Z.max e (fexp 53 1024 (Zpos (digits2_pos m) + e)) <= -2 ->
  c * 2 ^ (Z.max e (fexp 53 1024 (Zpos (digits2_pos m) + e)) - e) <= Zpos m ->
  exists q' e'',
    binary_round_aux 53 1024 s (Zpos m) e loc_Exact = S754_finite s q' e''
    /\ c <= Zpos q' * 2 ^ (e'' - Z.max e (fexp 53 1024 (Zpos (digits2_pos m) + e))).
Proof.
  intros He. set (d := Zpos (digits2_pos m)).
  unfold fexp, emin. set (e0 := Z.max e (Z.max (d + e - 53) (3 - 1024 - 53))).
  intros He0 Hc.
  assert (Hshort : Z.max (d + e - 53) (3 - 1024 - 53) - e <= 0 ->
            exists q' e'',
              binary_round_aux 53 1024 s (Zpos m) e loc_Exact = S754_finite s q' e''
              /\ c <= Zpos q' * 2 ^ (e'' - e0)).
  { intros Hg. assert (e0 = e) by lia.
    exists m, e. split.
    - unfold binary_round_aux, shr_fexp. cbn [Zdigits2 shr_record_of_loc]. fold d.
      unfold fexp, emin.
      destruct (Z.max (d + e - 53) (3 - 1024 - 53) - e) as [|g|g] eqn:Hg'; [| lia |];
        cbn [shr shr_m loc_of_shr_record round_nearest_even Zdigits2]; fold d;
        rewrite Hg'; cbn [shr shr_m];
        (destruct (Z.leb_spec e (1024 - 53)); [reflexivity | lia]).
    - replace (e - e0) with 0 by lia. replace (e0 - e) with 0 in Hc by lia.
      rewrite Z.pow_0_r in *. lia. }
  destruct (Z.max (d + e - 53) (3 - 1024 - 53) - e) as [|g|g] eqn:Hg;
    [apply Hshort; lia | | apply Hshort; lia].
  clear Hshort.
  assert (Hd : d = 53 + Zpos g) by lia.
  assert (Hee : e0 = e + Zpos g) by lia.
  unfold binary_round_aux, shr_fexp. cbn [Zdigits2 shr_record_of_loc]. fold d.
  unfold fexp, emin. rewrite Hg. cbn [shr].
  set (r := SpecFloat.iter_pos shr_1 g
              {| shr_m := Zpos m; shr_r := false; shr_s := false |}).
  assert (Hr : shr_state (Zpos m) (Zpos g) r).
  { change (Zpos g) with (0 + Zpos g). apply iter_shr_1_state; [lia | lia |].
    split; cbn [shr_m shr_r shr_s]; [now rewrite Z.div_1_r | tauto]. }
  assert (Hp : 0 < 2 ^ Zpos g) by (apply Z.pow_pos_nonneg; lia).
  pose proof (digits2_pos_bound m) as Hhi. fold d in Hhi.
  pose proof (digits2_pos_low m) as Hlo. fold d in Hlo.
  rewrite Hd in Hhi, Hlo.
  replace (53 + Zpos g - 1) with (52 + Zpos g) in Hlo by lia.
  rewrite Z.pow_add_r in Hhi, Hlo by lia.
  assert (Hfl : 2 ^ 52 <= Zpos m / 2 ^ Zpos g < 2 ^ 53).
  { split; [apply Z.div_le_lower_bound; lia | apply Z.div_lt_upper_bound; lia]. }
  replace (e0 - e) with (Zpos g) in Hc by lia.
  assert (Hcq : c <= Zpos m / 2 ^ Zpos g) by (apply Z.div_le_lower_bound; lia).
  assert (Hq : Zpos m / 2 ^ Zpos g
               <= round_nearest_even (shr_m r) (loc_of_shr_record r)
               <= Zpos m / 2 ^ Zpos g + 1).
  { apply (round_after_shift (Zpos m) (Zpos g) r); [lia | lia | exact Hr |].
    pose proof (Z.div_mod (Zpos m) (2 ^ Zpos g) ltac:(lia)).
    pose proof (Z.mod_pos_bound (Zpos m) (2 ^ Zpos g) Hp). nia. }
  remember (round_nearest_even (shr_m r) (loc_of_shr_record r)) as rq eqn:Hrq.
  destruct rq as [|q|q]; [lia | | lia].
  cbn [Zdigits2 shr_record_of_loc].
  destruct (Z.eq_dec (Zpos q) (2 ^ 53)) as [Hcarry|Hnc].
  - assert (q = Pos.pow 2 53) by (apply Pos2Z.inj; rewrite Hcarry; reflexivity).
    subst q.
    replace (Z.max (Zpos (digits2_pos (2 ^ 53)) + (e + Zpos g) - 53) (3 - 1024 - 53) - (e + Zpos g))
      with 1 by (change (Zpos (digits2_pos (2 ^ 53))) with 54; lia).
    cbn [shr SpecFloat.iter_pos shr_1 shr_m Pos.pow Pos.iter Pos.mul].
    destruct (Z.leb_spec (e + Zpos g + 1) (1024 - 53)); [|lia].
    eexists. eexists. split; [reflexivity|].
    replace (e + Zpos g + 1 - e0) with 1 by lia.
    change (Zpos (2 ^ 52) * 2 ^ 1) with (2 ^ 53). lia.
  - assert (Hdq : Zpos (digits2_pos q) = 53).
    { apply Z.le_antisymm; [apply digits2_pos_le; lia | apply digits2_pos_ge; lia]. }
    rewrite Hdq.
    replace (Z.max (53 + (e + Zpos g) - 53) (3 - 1024 - 53) - (e + Zpos g)) with 0 by lia.
    cbn [shr shr_m].
    destruct (Z.leb_spec (e + Zpos g) (1024 - 53)); [|lia].
    exists q, (e + Zpos g). split; [reflexivity|].
    replace (e + Zpos g - e0) with 0 by lia. rewrite Z.pow_0_r. lia.
Qed.

(** A mantissa that sits on the grid of its target exponent is rounded
    to itself. *)
Lemma binary_round_aux_exact (s : bool) (m : positive) (e c : Z) :
  -1074 <= e ->
  Z.max e (fexp 53 1024 (Zpos (digits2_pos m) + e)) <= -2 ->
  Zpos m = c * 2 ^ (Z.max e (fexp 53 1024 (Zpos (digits2_pos m) + e)) - e) ->
  exists q' e'',
    binary_round_aux 53 1024 s (Zpos m) e loc_Exact = S754_finite s q' e''
    /\ e'' < 0
    /\ Z.max e (fexp 53 1024 (Zpos (digits2_pos m) + e)) <= e''
    /\ Zpos q' * 2 ^ (e'' - Z.max e (fexp 53 1024 (Zpos (digits2_pos m) + e))) = c.
Proof.
  intros He He0 Hm.
  destruct (binary_round_aux_bound s m e c He He0 ltac:(lia))
    as (q1 & e1 & Hr1 & Hneg & Hge & Hup).
  destruct (binary_round_aux_lower s m e c He He0 ltac:(lia))
    as (q2 & e2 & Hr2 & Hlow).
  rewrite Hr1 in Hr2. inversion Hr2; subst q2 e2.
  exists q1, e1. repeat split; try assumption. lia.
Qed.

(** A value that is a multiple of the unit of its own rounding exponent
    is rounded to itself; its integer part is the integer part of the
    exact value. *)
Lemma binary_round_on_grid (s : bool) (m : positive) (e c t : Z) :
  -1074 <= e <= -1 ->
  fexp 53 1024 (Zpos (digits2_pos m) + e) <= -2 ->
  0 <= t -> Zpos m = c * 2 ^ t ->
  fexp 53 1024 (Zpos (digits2_pos m) + e) - e <= t ->
  exists q' e'',
    binary_round 53 1024 s m e = S754_finite s q' e''
    /\ e'' < 0
    /\ Z.shiftr (Zpos q') (- e'') = Zpos m / 2 ^ (- e).
Proof.
  intros He Hf Ht Hm Hft. unfold binary_round.
  set (f := fexp 53 1024 (Zpos (digits2_pos m) + e)) in *.
  assert (Hfmin : -1074 <= f) by (unfold f, fexp, emin; lia).
  assert (Hfinish : forall (q' : positive) e'' e0 c0, e0 <= e'' -> e'' < 0 ->
            Zpos q' * 2 ^ (e'' - e0) = c0 ->
            Z.shiftr (Zpos q') (- e'') = c0 / 2 ^ (- e0)).
  { intros q' e'' e0 c0 H1 H2 H3. rewrite Z.shiftr_div_pow2 by lia. subst c0.
    replace (- e0) with (- e'' + (e'' - e0)) by lia.
    rewrite Z.pow_add_r by lia.
    assert (0 < 2 ^ (e'' - e0)) by (apply Z.pow_pos_nonneg; lia).
    assert (0 < 2 ^ (- e'')) by (apply Z.pow_pos_nonneg; lia).
    rewrite Z.div_mul_cancel_r by lia. reflexivity. }
  unfold shl_align. destruct (f - e) as [|k|k] eqn:Hk.
  - (* the exponent is already the target *)
    destruct (binary_round_aux_exact s m e (Zpos m))
      as (q' & e'' & Hr & Hneg & Hge & Heq); fold f.
    + lia.
    + lia.
    + replace (Z.max e f - e) with 0 by lia. rewrite Z.pow_0_r. lia.
    + fold f in Hge, Heq. replace (Z.max e f) with e in Hge, Heq by lia.
      exists q', e''. split; [exact Hr|]. split; [exact Hneg|].
      apply (Hfinish q' e'' e); [lia | lia | exact Heq].
  - (* the mantissa is too long, and its low bits are zero *)
    assert (Hc : Zpos m = (c * 2 ^ (t - Zpos k)) * 2 ^ Zpos k).
    { rewrite <- Z.mul_assoc, <- Z.pow_add_r by lia.
      replace (t - Zpos k + Zpos k) with t by lia. exact Hm. }
    destruct (binary_round_aux_exact s m e (c * 2 ^ (t - Zpos k)))
      as (q' & e'' & Hr & Hneg & Hge & Heq); fold f.
    + lia.
    + lia.
    + replace (Z.max e f - e) with (Zpos k) by lia. exact Hc.
    + fold f in Hge, Heq. replace (Z.max e f) with f in Hge, Heq by lia.
      exists q', e''. split; [exact Hr|]. split; [exact Hneg|].
      rewrite (Hfinish q' e'' f _ ltac:(lia) Hneg Heq).
      rewrite Hc. replace (- e) with (- f + Zpos k) by lia.
      rewrite Z.pow_add_r by lia.
      assert (0 < 2 ^ Zpos k) by (apply Z.pow_pos_nonneg; lia).
      assert (0 < 2 ^ (- f)) by (apply Z.pow_pos_nonneg; lia).
      rewrite Z.div_mul_cancel_r by lia. reflexivity.
  - (* the mantissa is short: it is aligned on the target exponent *)
    assert (Hdig : Zpos (digits2_pos (Pos.iter xO m k)) + f = Zpos (digits2_pos m) + e).
    { rewrite digits2_pos_iter_xO. lia. }
    destruct (binary_round_aux_exact s (Pos.iter xO m k) f (Zpos m * 2 ^ Zpos k))
      as (q' & e'' & Hr & Hneg & Hge & Heq); rewrite ?Hdig; fold f.
    + lia.
    + lia.
    + replace (Z.max f f - f) with 0 by lia. rewrite Z.pow_0_r, iter_xO_value. lia.
    + exists q', e''. split; [exact Hr|]. split; [exact Hneg|].
      rewrite Hdig in Hge, Heq. fold f in Hge, Heq.
      replace (Z.max f f) with f in Hge, Heq by lia.
      rewrite (Hfinish q' e'' f _ ltac:(lia) Hneg Heq).
      replace (- f) with (- e + Zpos k) by lia.
      rewrite Z.pow_add_r by lia.
      assert (0 < 2 ^ Zpos k) by (apply Z.pow_pos_nonneg; lia).
      assert (0 < 2 ^ (- e)) by (apply Z.pow_pos_nonneg; lia).
      rewrite Z.div_mul_cancel_r by lia. reflexivity.
Qed.

(** [math.trunc(y + 0.5)] is exact when the low [j] bits of the mantissa
    of [y] are zero and its last set bit weighs at least [2^-53]: the sum
    is then a double, and its integer part is that of the exact sum. *)
Lemma add_half_trunc_exact (s : bool) (m : positive) (e j m0 : Z) :
  Zpos (digits2_pos m) = 53 -> -1074 <= e <= -3 ->
  1 <= j -> Zpos m = m0 * 2 ^ j -> -53 <= e + j ->
  py_trunc (PyFloat (PyFloat.add (S754_finite s m e) PyFloat.half))
  = Ok (Z.quot (cond_Zopp s (Zpos m) + 2 ^ (-1 - e)) (2 ^ (- e))).
Proof.
  intros Hd He Hj Hm Hej.
  unfold PyFloat.add, PyFloat.half, SFadd, PyFloat.prec, PyFloat.emax.
  set (ez := Z.min e (-53)).
  rewrite !shl_align_value by lia.
  assert (Hb : Zpos 4503599627370496 * 2 ^ (-53 - ez) = 2 ^ (-1 - ez)).
  { change (Zpos 4503599627370496) with (2 ^ 52). rewrite <- Z.pow_add_r by lia.
    f_equal. lia. }
  cbn [cond_Zopp]. rewrite Hb.
  set (a := Zpos m * 2 ^ (e - ez)).
  set (h := 2 ^ (-1 - ez)).
  set (num := cond_Zopp s (Zpos m) + 2 ^ (-1 - e)).
  set (u := 2 ^ (e - ez)).
  assert (Hu : 0 < u) by (apply Z.pow_pos_nonneg; lia).
  assert (Hh : h = 2 ^ (-1 - e) * u).
  { unfold h, u. rewrite <- Z.pow_add_r by lia. f_equal. lia. }
  assert (Hnum : cond_Zopp s a + h = num * u).
  { unfold num, a. fold u. rewrite Hh. destruct s; cbn [cond_Zopp]; lia. }
  assert (Hden : 2 ^ (- ez) = 2 ^ (- e) * u).
  { unfold u. rewrite <- Z.pow_add_r by lia. f_equal. lia. }
  assert (Hpe : 0 < 2 ^ (- e)) by (apply Z.pow_pos_nonneg; lia).
  (* the grid of the sum *)
  set (t := Z.min (e + j) (-1) - ez).
  assert (Ht : 0 <= t) by (unfold t, ez; lia).
  assert (Hgrid : exists c, cond_Zopp s a + h = c * 2 ^ t).
  { exists (cond_Zopp s m0 * 2 ^ (e + j - ez - t) + 2 ^ (-1 - ez - t)).
    rewrite Z.mul_add_distr_r, <- Z.mul_assoc, <- !Z.pow_add_r by (unfold t; lia).
    replace (e + j - ez - t + t) with (j + (e - ez)) by lia.
    replace (-1 - ez - t + t) with (-1 - ez) by lia.
    unfold a, h. rewrite Hm, Z.pow_add_r by lia.
    destruct s; cbn [cond_Zopp]; lia. }
  assert (Hmag : Z.abs (cond_Zopp s a + h) < 2 ^ (Z.max (e + 54) 0 - ez)).
  { pose proof (digits2_pos_bound m) as Hlt. rewrite Hd in Hlt.
    assert (Ha : 0 < a < 2 ^ (53 + (e - ez))).
    { unfold a. fold u. split; [lia|]. rewrite Z.pow_add_r by lia. fold u. nia. }
    assert (Hh0 : 0 < h) by (apply Z.pow_pos_nonneg; lia).
    assert (Hsum : Z.abs (cond_Zopp s a + h) < 2 ^ (53 + (e - ez)) + 2 ^ (-1 - ez)).
    { fold h. destruct s; cbn [cond_Zopp]; lia. }
    eapply Z.lt_le_trans; [exact Hsum|].
    assert (H1 : 2 ^ (53 + (e - ez)) <= 2 ^ (Z.max (e + 54) 0 - ez - 1))
      by (apply Z.pow_le_mono_r; lia).
    assert (H2 : 2 ^ (-1 - ez) <= 2 ^ (Z.max (e + 54) 0 - ez - 1))
      by (apply Z.pow_le_mono_r; lia).
    replace (Z.max (e + 54) 0 - ez) with (Z.succ (Z.max (e + 54) 0 - ez - 1)) by lia.
    rewrite Z.pow_succ_r by lia. lia. }
  assert (Hfexp : forall p : positive, Zpos p = Z.abs (cond_Zopp s a + h) ->
            fexp 53 1024 (Zpos (digits2_pos p) + ez) <= -2
            /\ fexp 53 1024 (Zpos (digits2_pos p) + ez) - ez <= t).
  { intros p Hp. unfold fexp, emin.
    assert (Zpos (digits2_pos p) <= Z.max (e + 54) 0 - ez)
      by (apply digits2_pos_le; lia).
    unfold t. lia. }
  unfold binary_normalize.
  destruct Hgrid as (c & Hc).
  destruct (cond_Zopp s a + h) as [|n|n] eqn:Hn.
  - assert (num = 0) by nia. rewrite H. cbn [py_trunc]. rewrite Z.quot_0_l by lia. reflexivity.
  - destruct (Hfexp n eq_refl) as [Hf1 Hf2].
    destruct (binary_round_on_grid false n ez c t) as (q' & e'' & Hr & Hneg & Hq);
      [lia | exact Hf1 | exact Ht | exact Hc | exact Hf2 |].
    rewrite Hr. cbn [py_trunc]. unfold PyFloat.trunc_finite. cbn [cond_Zopp].
    destruct (Z.leb_spec 0 e''); [lia|].
    rewrite Hq, Hnum, Hden, Z.div_mul_cancel_r by lia.
    assert (0 < num) by nia.
    rewrite Z.quot_div_nonneg by lia. reflexivity.
  - destruct (Hfexp n eq_refl) as [Hf1 Hf2].
    destruct (binary_round_on_grid true n ez (- c) t) as (q' & e'' & Hr & Hneg & Hq);
      [lia | exact Hf1 | exact Ht | lia | exact Hf2 |].
    rewrite Hr. cbn [py_trunc]. unfold PyFloat.trunc_finite. cbn [cond_Zopp].
    destruct (Z.leb_spec 0 e''); [lia|].
    assert (Hn' : Zpos n = (- num) * u) by lia.
    rewrite Hq, Hn', Hden, Z.div_mul_cancel_r by lia.
    assert (num < 0) by nia.
    rewrite <- Z.quot_div_nonneg by lia.
    rewrite Z.quot_opp_l by lia. now rewrite Z.opp_involutive.
Qed.

(** ** The float formula on samples that are ints *)

(** With 8 or 16 input bits the samples are ints whatever the encoding,
    and [value * max_output_value] is an int product; [0.5] is added to
    its double and the sum truncated.  Below [2^50] this is the product
    itself when it is not negative, and the product plus one when it is:
    truncation goes toward zero. *)
Lemma rescale_int (M z : Z) :
  Z.abs (z * M) < 2 ^ 50 ->
  rescale M (PyInt z) = Ok (PyInt (if 0 <=? z * M then z * M else z * M + 1)).
Proof.
  intros Hb. unfold rescale. cbn [py_mul obind py_add py_to_float].
  unfold py_float_of_int.
  assert (Hshape : forall (s : bool) (P : positive), Zpos P < 2 ^ 50 ->
            py_trunc (PyFloat (PyFloat.add
              (S754_finite s (Z.to_pos (Zpos P * 2 ^ (53 - Zpos (digits2_pos P))))
                 (Zpos (digits2_pos P) - 53)) PyFloat.half))
            = Ok (if s then - Zpos P + 1 else Zpos P)).
  { intros s P HP.
    assert (Hd : Zpos (digits2_pos P) <= 50) by (apply digits2_pos_le; lia).
    set (d := Zpos (digits2_pos P)) in *.
    assert (Hd1 : 1 <= d) by (unfold d; lia).
    assert (Hp : 0 < 2 ^ (53 - d)) by (apply Z.pow_pos_nonneg; lia).
    assert (Hm : Zpos (Z.to_pos (Zpos P * 2 ^ (53 - d))) = Zpos P * 2 ^ (53 - d))
      by (apply Z2Pos.id; lia).
    rewrite (add_half_trunc_exact s _ (d - 53) (53 - d) (Zpos P));
      [| apply normalized_digits; fold d; lia | lia | lia | exact Hm | lia].
    rewrite Hm. f_equal.
    replace (- (d - 53)) with (Z.succ (52 - d)) by lia.
    replace (53 - d) with (Z.succ (52 - d)) by lia.
    replace (-1 - (d - 53)) with (52 - d) by lia.
    rewrite Z.pow_succ_r by lia.
    assert (Hq : 0 < 2 ^ (52 - d)) by (apply Z.pow_pos_nonneg; lia).
    destruct s; cbn [cond_Zopp].
    - replace (- (Zpos P * (2 * 2 ^ (52 - d))) + 2 ^ (52 - d))
        with ((- (2 * Zpos P - 1)) * 2 ^ (52 - d)) by lia.
      rewrite Z.quot_mul_cancel_r by lia.
      rewrite Z.quot_opp_l, Z.quot_div_nonneg by lia.
      assert ((2 * Zpos P - 1) / 2 = Zpos P - 1)
        by (symmetry; apply (Z.div_unique _ _ _ 1); lia).
      lia.
    - replace (Zpos P * (2 * 2 ^ (52 - d)) + 2 ^ (52 - d))
        with ((2 * Zpos P + 1) * 2 ^ (52 - d)) by lia.
      rewrite Z.quot_mul_cancel_r by lia.
      rewrite Z.quot_div_nonneg by lia.
      symmetry; apply (Z.div_unique _ _ _ 1); lia. }
  destruct (z * M) as [|P|P] eqn:Hp.
  - reflexivity.
  - assert (HP : Zpos P < 2 ^ 50) by lia.
    rewrite of_Z_pos by (apply Z.le_trans with 50; [apply digits2_pos_le; lia | lia]).
    cbn [obind]. rewrite (Hshape false P HP). reflexivity.
  - assert (HP : Zpos P < 2 ^ 50) by lia.
    assert (Hd : Zpos (digits2_pos P) <= 50) by (apply digits2_pos_le; lia).
    unfold PyFloat.of_Z, binary_normalize, PyFloat.prec, PyFloat.emax.
    rewrite binary_round_short by lia.
    cbn [obind]. replace (0 + Zpos (digits2_pos P) - 53) with (Zpos (digits2_pos P) - 53) by lia.
    rewrite (Hshape true P HP). reflexivity.
Qed.

Lemma omap_Forall2 {A B : Type} (f : A -> outcome B) (P : A -> Prop) (R : A -> B -> Prop)
    (l : list A) :
  (forall x, P x -> exists y, f x = Ok y /\ R x y) ->
  Forall P l -> exists out, omap f l = Ok out /\ Forall2 R l out.
Proof.
  intros Hf. induction 1 as [|x rest Hx _ IH].
  - exists []. split; [reflexivity | constructor].
  - destruct (Hf x Hx) as (y & Hy & HR). destruct IH as (ys & Hys & HRs).
    exists (y :: ys). cbn. rewrite Hy, Hys. split; [reflexivity | now constructor].
Qed.

Lemma Forall2_right {A B : Type} (R : A -> B -> Prop) (Q : B -> Prop)
    (l : list A) (out : list B) :
  (forall x y, R x y -> Q y) -> Forall2 R l out -> Forall Q out.
Proof.
  intros HRQ. induction 1 as [|x y l out Hxy _ IH]; constructor; eauto.
Qed.

Lemma decoded_sequence_short (args : Namespace) (content : list byte) :
  input_bits args = 8 \/ input_bits args = 16 ->
  Forall (fits_signed (input_bits args)) (decoded_sequence args content).
Proof.
  intros Hib. unfold decoded_sequence, array_type_of.
  destruct Hib as [H | H]; rewrite H;
    cbn [Z.eqb Pos.eqb array_array String.eqb Ascii.eqb Bool.eqb].
  - apply (decode_items_signed tc_b). discriminate.
  - apply (decode_items_signed tc_h). discriminate.
Qed.

(** The table computed with the float encoding from ints of at most 16
    bits. *)
Lemma out_values_of_scaled (args : Namespace) (l : list pyval) :
  is_float_encoding args = true ->
  valid_bits (output_bits args) ->
  Forall (fits_signed 16) l ->
  exists out_values,
    out_values_of args l = Ok out_values
    /\ Forall2 (fun v o => exists z,
                  v = PyInt z
                  /\ o = PyInt (if 0 <=? z
                                then z * 2 ^ (output_bits args - 1)
                                else z * 2 ^ (output_bits args - 1) + 1))
               l out_values.
Proof.
  intros Henc Hob Hint.
  set (k := output_bits args - 1).
  assert (Hk : 7 <= k <= 31) by (unfold k; destruct Hob as [H | [H | H]]; lia).
  assert (Hm : py_lshift 2 (output_bits args - 2) = Ok (2 ^ k)).
  { unfold k. destruct Hob as [H | [H | H]]; rewrite H; reflexivity. }
  assert (Hpk : 2 ^ 7 <= 2 ^ k <= 2 ^ 31) by (split; apply Z.pow_le_mono_r; lia).
  destruct (omap_Forall2 (rescale (2 ^ k)) (fits_signed 16)
              (fun v o => exists z,
                 v = PyInt z
                 /\ o = PyInt (if 0 <=? z then z * 2 ^ k else z * 2 ^ k + 1))
              l) as (out & Hout & Hall).
  - intros [z|f] Hz; [|contradiction]. cbn [fits_signed] in Hz.
    change (2 ^ (16 - 1)) with 32768 in Hz.
    eexists. split.
    + apply rescale_int. change (2 ^ 50) with (2 ^ 19 * 2 ^ 31). nia.
    + exists z. split; [reflexivity|].
      destruct (Z.leb_spec 0 z), (Z.leb_spec 0 (z * 2 ^ k)); try reflexivity; nia.
  - exact Hint.
  - exists out. split; [|exact Hall].
    unfold out_values_of. rewrite Hm. cbn [obind].
    rewrite (omap_ext (convert_value args (2 ^ k)) (rescale (2 ^ k)))
      by (intros v; unfold convert_value; now rewrite Henc).
    rewrite Hout. cbn [obind].
    destruct (make_symmetrical args); [|reflexivity].
    unfold symmetrical. rewrite py_in_absent; [reflexivity|].
    eapply Forall2_right; [|exact Hall].
    intros v o (z & _ & ->). cbn beta.
    destruct (Z.leb_spec 0 z); nia.
Qed.

(** X13.  With [--input-encoding float] on 8 or 16 input bits the samples
    are ints, and the float formula is applied to them as it stands: a
    sample [z >= 0] becomes [z * max_output_value] and a sample [z < 0]
    becomes [z * max_output_value + 1], for either setting of
    [--make-symmetrical]; no exception is raised. *)
Theorem float_encoding_scales_integer_samples
    (args : Namespace) (content : list byte) :
  is_float_encoding args = true ->
  input_bits args = 8 \/ input_bits args = 16 ->
  valid_bits (output_bits args) ->
  exists out_values,
    out_values_of args (decoded_sequence args content) = Ok out_values
    /\ Forall2 (fun v o => exists z,
                  v = PyInt z
                  /\ o = PyInt (if 0 <=? z
                                then z * 2 ^ (output_bits args - 1)
                                else z * 2 ^ (output_bits args - 1) + 1))
               (decoded_sequence args content) out_values.
Proof.
  intros Henc Hib Hob.
  apply out_values_of_scaled; [exact Henc | exact Hob |].
  eapply List.Forall_impl; [|apply (decoded_sequence_short args content Hib)].
  intros v Hv.
  apply (fits_signed_mono (input_bits args) 16); [destruct Hib; lia | exact Hv].
Qed.

Lemma float_encoding_scales_integer_samples_witness :
  exists out_values,
    out_values_of (mkArgs "float" 8 8 "in.raw" None None 16384 true)
      (decoded_sequence (mkArgs "float" 8 8 "in.raw" None None 16384 true)
         [x01; xff; x80]) = Ok out_values
    /\ Forall2 (fun v o => exists z,
                  v = PyInt z
                  /\ o = PyInt (if 0 <=? z then z * 2 ^ (8 - 1) else z * 2 ^ (8 - 1) + 1))
               (decoded_sequence (mkArgs "float" 8 8 "in.raw" None None 16384 true)
                  [x01; xff; x80]) out_values.
Proof.
  apply (float_encoding_scales_integer_samples
           (mkArgs "float" 8 8 "in.raw" None None 16384 true) [x01; xff; x80]).
  - reflexivity.
  - left. reflexivity.
  - left. reflexivity.
Defined.

(** ** The float formula on binary32 samples *)

Lemma of_Z_pow2 (k : Z) :
  0 <= k <= 52 ->
  PyFloat.of_Z (2 ^ k) = S754_finite false 4503599627370496 (k - 52).
Proof.
  intros Hk.
  assert (Hp : 0 < 2 ^ k) by (apply Z.pow_pos_nonneg; lia).
  destruct (2 ^ k) as [|p|p] eqn:Hpk; [lia | | lia].
  assert (Hd : Zpos (digits2_pos p) = k + 1).
  { apply Z.le_antisymm.
    - apply digits2_pos_le; [lia|]. rewrite Z.pow_add_r, Hpk by lia. change (2 ^ 1) with 2. lia.
    - apply digits2_pos_ge. replace (k + 1 - 1) with k by lia. rewrite Hpk. lia. }
  rewrite of_Z_pos by lia. rewrite Hd, <- Hpk, <- Z.pow_add_r by lia.
  replace (k + (53 - (k + 1))) with 52 by lia.
  f_equal. lia.
Qed.

(** Below a quarter in magnitude the sum with [0.5] stays below one. *)
Lemma add_half_trunc_tiny (s : bool) (m : positive) (e : Z) :
  Zpos (digits2_pos m) = 53 -> -1074 <= e <= -56 ->
  py_trunc (PyFloat (PyFloat.add (S754_finite s m e) PyFloat.half)) = Ok 0.
Proof.
  intros Hd He.
  unfold PyFloat.add, PyFloat.half, SFadd, PyFloat.prec, PyFloat.emax.
  replace (Z.min e (-53)) with e by lia.
  rewrite !shl_align_value by lia.
  assert (Hb : Zpos 4503599627370496 * 2 ^ (-53 - e) = 2 ^ (-1 - e)).
  { change (Zpos 4503599627370496) with (2 ^ 52). rewrite <- Z.pow_add_r by lia.
    f_equal. lia. }
  cbn [cond_Zopp]. rewrite Hb.
  replace (e - e) with 0 by lia. rewrite Z.pow_0_r, Z.mul_1_r.
  set (h := 2 ^ (-2 - e)).
  assert (Hh : 2 ^ (-1 - e) = 2 * h).
  { unfold h. replace (-1 - e) with (Z.succ (-2 - e)) by lia.
    apply Z.pow_succ_r. lia. }
  assert (Hm : Zpos m < h).
  { pose proof (digits2_pos_bound m) as Hlt. rewrite Hd in Hlt.
    assert (2 ^ 53 <= h) by (apply Z.pow_le_mono_r; lia). lia. }
  rewrite Hh. unfold binary_normalize.
  destruct (cond_Zopp s (Zpos m) + 2 * h) as [|n|n] eqn:Hn;
    [reflexivity | | destruct s; cbn [cond_Zopp] in Hn; lia].
  assert (Hnb : h < Zpos n < 3 * h) by (destruct s; cbn [cond_Zopp] in Hn; lia).
  assert (Hdn : -1 - e <= Zpos (digits2_pos n) <= 1 - e).
  { split.
    - apply digits2_pos_ge. replace (-1 - e - 1) with (-2 - e) by lia. fold h. lia.
    - apply digits2_pos_le; [lia|].
      replace (1 - e) with (Z.succ (Z.succ (Z.succ (-2 - e)))) by lia.
      rewrite !Z.pow_succ_r by lia. fold h. lia. }
  unfold binary_round.
  set (f := fexp 53 1024 (Zpos (digits2_pos n) + e)).
  assert (Hf : -54 <= f <= -52) by (unfold f, fexp, emin; lia).
  unfold shl_align. destruct (f - e) as [|g|g] eqn:Hg; [lia | | lia].
  destruct (binary_round_aux_bound false n e (3 * 2 ^ (-2 - f)))
    as (q' & e'' & Hr & Hneg & Hge & Hle); fold f.
  - lia.
  - lia.
  - replace (Z.max e f) with f by lia.
    rewrite <- Z.mul_assoc, <- Z.pow_add_r by lia.
    replace (-2 - f + (f - e)) with (-2 - e) by lia. fold h. lia.
  - fold f in Hge, Hle. replace (Z.max e f) with f in Hge, Hle by lia.
    rewrite Hr. cbn [py_trunc]. unfold PyFloat.trunc_finite. cbn [cond_Zopp].
    destruct (Z.leb_spec 0 e''); [lia|].
    rewrite Z.shiftr_div_pow2 by lia. f_equal. apply Z.div_small.
    split; [lia|].
    assert (H1 : 0 < 2 ^ (e'' - f)) by (apply Z.pow_pos_nonneg; lia).
    assert (H2 : 2 ^ (- e'') * 2 ^ (e'' - f) = 4 * 2 ^ (-2 - f)).
    { rewrite <- Z.pow_add_r by lia. replace (- e'' + (e'' - f)) with (2 + (-2 - f)) by lia.
      rewrite Z.pow_add_r by lia. reflexivity. }
    assert (H3 : 0 < 2 ^ (-2 - f)) by (apply Z.pow_pos_nonneg; lia).
    nia.
Qed.

(** The formula on a binary32 value given by its sign, significand and
    exponent. *)
Lemma rescale_f32_parts (k : Z) (sign : bool) (p : positive) (E0 : Z) :
  0 <= k <= 31 -> Zpos p < 2 ^ 24 -> -149 <= E0 -> E0 + k <= 26 ->
  rescale (2 ^ k) (PyFloat (binary_round 53 1024 sign p E0))
  = Ok (PyInt (if 0 <=? E0 + k
               then Z.quot (2 * (cond_Zopp sign (Zpos p) * 2 ^ (E0 + k)) + 1) 2
               else Z.quot (2 * cond_Zopp sign (Zpos p) + 2 ^ (- (E0 + k)))
                           (2 * 2 ^ (- (E0 + k))))).
Proof.
  intros Hk Hp HE0 HE.
  assert (Hd : Zpos (digits2_pos p) <= 24) by (apply digits2_pos_le; lia).
  set (d := Zpos (digits2_pos p)) in *.
  assert (Hd1 : 1 <= d) by (unfold d; lia).
  rewrite binary_round_short by (fold d; lia). fold d.
  set (m := Z.to_pos (Zpos p * 2 ^ (53 - d))).
  assert (Hpj : 0 < 2 ^ (53 - d)) by (apply Z.pow_pos_nonneg; lia).
  assert (Hm : Zpos m = Zpos p * 2 ^ (53 - d)) by (apply Z2Pos.id; lia).
  assert (Hdm : Zpos (digits2_pos m) = 53) by (apply normalized_digits; fold d; lia).
  unfold rescale, py_mul, py_to_float, py_float_of_int.
  rewrite of_Z_pow2 by lia. cbn [obind].
  rewrite mul_pow2 by lia. cbn [py_add py_to_float obind].
  set (E := E0 + k) in *.
  destruct (Z.le_gt_cases (-53) E) as [Hbig | Htiny].
  - rewrite (add_half_trunc_exact sign m (E0 + d - 53 + k) (53 - d) (Zpos p));
      [| exact Hdm | lia | lia | exact Hm | lia].
    cbn [obind]. do 2 f_equal. rewrite Hm.
    destruct (Z.leb_spec 0 E) as [HE0' | HE0'].
    + set (r := 2 ^ (52 - d - E)).
      assert (Hr : 0 < r) by (apply Z.pow_pos_nonneg; lia).
      assert (H1 : 2 ^ (53 - d) = 2 ^ E * (2 * r)).
      { unfold r. rewrite <- Z.pow_succ_r, <- Z.pow_add_r by lia. f_equal. lia. }
      assert (H2 : 2 ^ (-1 - (E0 + d - 53 + k)) = r) by (unfold r; f_equal; lia).
      assert (H3 : 2 ^ (- (E0 + d - 53 + k)) = 2 * r).
      { unfold r. rewrite <- Z.pow_succ_r by lia. f_equal. lia. }
      rewrite H1, H2, H3.
      replace (cond_Zopp sign (Zpos p * (2 ^ E * (2 * r))) + r)
        with ((2 * (cond_Zopp sign (Zpos p) * 2 ^ E) + 1) * r)
        by (destruct sign; cbn [cond_Zopp]; lia).
      apply Z.quot_mul_cancel_r; lia.
    + set (r := 2 ^ (52 - d)).
      assert (Hr : 0 < r) by (apply Z.pow_pos_nonneg; lia).
      assert (HpE : 0 < 2 ^ (- E)) by (apply Z.pow_pos_nonneg; lia).
      assert (H1 : 2 ^ (53 - d) = 2 * r).
      { unfold r. rewrite <- Z.pow_succ_r by lia. f_equal. lia. }
      assert (H2 : 2 ^ (-1 - (E0 + d - 53 + k)) = 2 ^ (- E) * r).
      { unfold r. rewrite <- Z.pow_add_r by lia. f_equal. lia. }
      assert (H3 : 2 ^ (- (E0 + d - 53 + k)) = 2 * 2 ^ (- E) * r).
      { unfold r. rewrite <- Z.pow_succ_r, <- Z.pow_add_r by lia. f_equal. lia. }
      rewrite H1, H2, H3.
      replace (cond_Zopp sign (Zpos p * (2 * r)) + 2 ^ (- E) * r)
        with ((2 * cond_Zopp sign (Zpos p) + 2 ^ (- E)) * r)
        by (destruct sign; cbn [cond_Zopp]; lia).
      apply Z.quot_mul_cancel_r; lia.
  - rewrite add_half_trunc_tiny by (try exact Hdm; lia).
    cbn [obind]. do 2 f_equal.
    destruct (Z.leb_spec 0 E); [lia|].
    symmetry. apply Z.quot_small.
    assert (2 ^ 54 <= 2 ^ (- E)) by (apply Z.pow_le_mono_r; lia).
    destruct sign; cbn [cond_Zopp]; lia.
Qed.

(** X14.  On a finite 32-bit float sample [x] whose biased exponent
    field plus [k] is at most 176, so that the product with
    [max_output_value = 2^k] is below [2^50] in magnitude, the double
    arithmetic of [math.trunc((value * max_output_value) + 0.5)] loses
    nothing: the result is the integer part, toward zero, of the exact
    [x * 2^k + 1/2]. *)
Theorem f32_sample_is_rescaled_exactly (k u : Z) :
  0 <= k <= 31 ->
  Z.land (Z.shiftr u 23) 255 + k <= 176 ->
  rescale (2 ^ k) (PyFloat (decode_f32 u)) = Ok (PyInt (exact_rescale_f32 k u)).
Proof.
  intros Hk Hex. unfold decode_f32, exact_rescale_f32.
  set (sign := Z.testbit u 31). set (ex := Z.land (Z.shiftr u 23) 255) in *.
  set (frac := Z.land u (Z.ones 23)).
  assert (Hfrac : 0 <= frac < 2 ^ 23).
  { unfold frac. rewrite Z.land_ones by lia. apply Z.mod_pos_bound. lia. }
  assert (Hexb : 0 <= ex < 2 ^ 8).
  { unfold ex. change 255 with (Z.ones 8). rewrite Z.land_ones by lia.
    apply Z.mod_pos_bound. lia. }
  assert (Hnorm : forall p : positive,
            binary_normalize PyFloat.prec PyFloat.emax (cond_Zopp sign (Zpos p))
              (if ex =? 0 then -149 else ex - 150) false
            = binary_round 53 1024 sign p (if ex =? 0 then -149 else ex - 150))
    by (intros p; destruct sign; reflexivity).
  destruct (Z.eqb_spec ex 255); [lia|].
  destruct (Z.eqb_spec ex 0) as [Hz | Hnz].
  - destruct (Z.eqb_spec frac 0) as [Hf0 | Hf0].
    + rewrite Hf0.
      unfold rescale, py_mul, py_to_float, py_float_of_int.
      rewrite of_Z_pow2 by lia. cbn [obind].
      destruct (Z.leb_spec 0 (-149 + k)); [lia|].
      replace (cond_Zopp sign 0) with 0 by (now destruct sign).
      rewrite Z.quot_small
        by (assert (0 < 2 ^ (- (-149 + k))) by (apply Z.pow_pos_nonneg; lia); lia).
      destruct sign; reflexivity.
    + destruct frac as [|p|p] eqn:Hfr; [lia | | lia].
      change (binary_normalize PyFloat.prec PyFloat.emax (cond_Zopp sign (Zpos p)) (-149) false)
        with (binary_normalize PyFloat.prec PyFloat.emax (cond_Zopp sign (Zpos p))
                (if 0 =? 0 then -149 else ex - 150) false).
      cbn [Z.eqb].
      replace (binary_normalize PyFloat.prec PyFloat.emax (cond_Zopp sign (Zpos p)) (-149) false)
        with (binary_round 53 1024 sign p (-149)) by (destruct sign; reflexivity).
      apply rescale_f32_parts; lia.
  - assert (Hpos : exists p, frac + 2 ^ 23 = Zpos p)
      by (exists (Z.to_pos (frac + 2 ^ 23)); lia).
    destruct Hpos as [p Hp]. rewrite Hp.
    replace (binary_normalize PyFloat.prec PyFloat.emax (cond_Zopp sign (Zpos p)) (ex - 150) false)
      with (binary_round 53 1024 sign p (ex - 150)) by (destruct sign; reflexivity).
    apply rescale_f32_parts; lia.
Qed.

Lemma f32_sample_is_rescaled_exactly_witness :
  rescale (2 ^ 7) (PyFloat (decode_f32 3204448256)) = Ok (PyInt (exact_rescale_f32 7 3204448256)).
Proof.
  apply (f32_sample_is_rescaled_exactly 7 3204448256).
  - lia.
  - vm_compute. discriminate.
Defined.

(** ** The program as a whole *)

Lemma parse_args_bits (cl : command_line) (args : Namespace) :
  parse_args cl = Ok args ->
  valid_bits (input_bits args) /\ valid_bits (output_bits args).
Proof.
  assert (Hin : forall z, Z_in z bits_choices = true -> valid_bits z).
  { intros z. unfold Z_in, bits_choices, valid_bits. cbn [existsb].
    destruct (Z.eqb_spec z 8); [tauto|].
    destruct (Z.eqb_spec z 16); [tauto|].
    destruct (Z.eqb_spec z 32); [tauto|]. discriminate. }
  unfold parse_args.
  destruct (string_in _ encoding_choices); [|discriminate].
  destruct (Z_in (default 8 (cl_input_bits cl)) bits_choices) eqn:Hi; [|discriminate].
  destruct (Z_in (default 8 (cl_output_bits cl)) bits_choices) eqn:Ho; [|discriminate].
  destruct (cl_input_file cl); [|discriminate].
  cbn [negb]. intros H. inversion H; subst args. cbn [input_bits output_bits].
  split; apply Hin; assumption.
Qed.

Section ProgramProperties.

Variable expanduser : string -> string.
Variable with_suffix : string -> string -> string.
Variable stem : string -> string.
Variable str_upper : string -> string.
Variable textwrap_fill : string -> Z -> string.
Variable float_repr : spec_float -> string.

Local Abbreviation program :=
  (main expanduser with_suffix stem str_upper textwrap_fill float_repr).
Local Abbreviation run :=
  (float2mozzi expanduser with_suffix stem str_upper textwrap_fill float_repr).
Local Abbreviation name_of := (tablename_of expanduser with_suffix stem str_upper).
Local Abbreviation out_path := (output_path_of expanduser with_suffix).
Local Abbreviation in_path args := (expanduser (input_file args)).
Local Abbreviation full_text args n out :=
  (header_text (name_of args) n (sample_rate args)
   +:+ textwrap_fill (table_text float_repr args (name_of args) out) 80
   +:+ footer_text (name_of args)).

(** Once the arguments are parsed, the program is the run followed by
    [sys.exit] of its result. *)
Lemma main_after_parse (cl : command_line) (args : Namespace) (w : world) :
  parse_args cl = Ok args ->
  program cl w
  = match run args w with
    | (Ok status, w') => (Raise (SystemExit status), w')
    | (Raise e, w') => (Raise e, w')
    end.
Proof. intros Hparse. unfold main, bind, lift, raise. now rewrite Hparse. Qed.

Lemma main_outcome
    (cl : command_line) (args : Namespace) (w : world) (content : list byte) :
  parse_args cl = Ok args ->
  fs w !! in_path args = Some content ->
  writable w (out_path args) = true ->
  out_path args <> in_path args ->
  Z.of_nat (length content) < 2 ^ 53 ->
  match out_values_of args (decoded_sequence args content) with
  | Ok out_values =>
      fst (program cl w) = Raise (SystemExit 0)
      /\ fs (snd (program cl w))
         = <[out_path args :=
               list_byte_of_string
                 (full_text args (Z.of_nat (length (decoded_sequence args content)))
                    out_values)]> (fs w)
  | Raise e =>
      fst (program cl w) = Raise e
      /\ fs (snd (program cl w))
         = <[out_path args :=
               list_byte_of_string
                 (header_text (name_of args)
                    (Z.of_nat (length (decoded_sequence args content)))
                    (sample_rate args))]> (fs w)
  end.
Proof.
  intros Hparse Hfs Hwr Hne Hsz.
  destruct (parse_args_bits cl args Hparse) as [Hib Hob].
  destruct (array_type_ok args Hib) as (tc & Htc & Hitem).
  pose proof (run_outcome expanduser with_suffix stem str_upper textwrap_fill float_repr
                args w content tc Hfs Hwr) as H.
  cbv zeta in H.
  rewrite (content_when_read_other _ _ content Hne) in H.
  specialize (H Hsz Hib Htc Hitem).
  rewrite <- (decoded_sequence_typed args content tc Htc) in H.
  rewrite (main_after_parse cl args w Hparse).
  destruct (run args w) as [r w'] eqn:Hrun. cbn [fst snd] in H.
  destruct (out_values_of args (decoded_sequence args content)) as [out | e].
  - destruct H as (Hr & Hfs' & _). subst r. split; [reflexivity | exact Hfs'].
  - destruct H as (Hr & Hfs' & _). subst r. split; [reflexivity | exact Hfs'].
Qed.




End ProgramProperties.



